(** * Enter-submit gate and event chain of the design-system input bundle

    A shallow embedding of the hooks of
    [mlflow/server/js/vendor/design-system/dist/index-Dj5HeQWT.js]:

    - [useCallbackOnEnter]        (lines 87-130)
    - [useCallbackOnceUntilReset] (lines 205-220)
    - [useChainEventHandlers]     (lines 233-247)
    - [onFormSubmit] of [Input]   (lines 429-434)
    - [handleSubmitForm] of [TextArea] (lines 553-558)

    JavaScript code is embedded in a small state-and-exception monad over a
    [World]: the event object being dispatched, the [useRef] cells of the
    hooks, the state of everything outside the hooks, and a ghost trace of the
    calls that leave the hooks. *)

From Stdlib Require Import Bool List String.
Import ListNotations.

Local Open Scope string_scope.
Local Open Scope list_scope.

(** ** JavaScript values and completions *)

(** How a JavaScript call ends: it returns, or it throws. *)
Inductive completion (A : Type) : Type :=
| Normal (a : A)
| Thrown (exn : string).

Arguments Normal {A} a.
Arguments Thrown {A} exn.

(** A value that may be [undefined] or [null]. *)
Inductive Nullable (A : Type) : Type :=
| JsUndefined
| JsNull
| JsValue (a : A).

Arguments JsUndefined {A}.
Arguments JsNull {A}.
Arguments JsValue {A} a.

(** [v === null] and [v === void 0]. *)
Definition strict_eq_null {A} (v : Nullable A) : bool :=
  match v with JsNull => true | _ => false end.

Definition strict_eq_undefined {A} (v : Nullable A) : bool :=
  match v with JsUndefined => true | _ => false end.

(** Truthiness of an optional boolean property ([undefined] is falsy). *)
Definition truthy (b : option bool) : bool :=
  match b with Some v => v | None => false end.

(** [haystack.includes(needle)]. *)
Fixpoint includes (haystack needle : string) : bool :=
  String.prefix needle haystack ||
  match haystack with
  | EmptyString => false
  | String _ rest => includes rest needle
  end.

(** The fields of a keyboard or composition event that the hooks read, and
    the one flag that handlers set. *)
Record Event : Type := mkEvent {
  key : string;
  metaKey : bool;
  ctrlKey : bool;
  shiftKey : bool;
  altKey : bool;
  defaultPrevented : bool
}.

(** What leaves the hooks, in the order it happened. *)
Inductive Obs : Type :=
| Invoked (name : nat)        (* a function supplied by the client was called *)
| PreventDefault              (* event.preventDefault() *)
| RequestSubmit (form : nat). (* form.requestSubmit() *)

Section Model.

(** The state of everything outside the hooks (the page, the client's own
    variables, ...). Client functions may read and write it freely. *)
Context {Ext : Type}.

(** ** Client functions *)

(** What a client function did when it was called with an event: how it
    ended, what the (shared, mutable) event object looks like afterwards, and
    the outside state it left. *)
Record Effect : Type := mkEffect {
  eff_completion : completion unit;
  eff_event : Event;
  eff_ext : Ext
}.

(** An event handler supplied by the client. [h_name] only labels its calls
    in the trace. The handler cannot reach the hooks' private ref cells. *)
Record Handler : Type := mkHandler {
  h_name : nat;
  h_body : Event -> Ext -> Effect
}.

(** A client function called with no argument. *)
Record Thunk : Type := mkThunk {
  t_name : nat;
  t_body : Ext -> completion unit * Ext
}.

(** ** The world and the monad *)

Record World : Type := mkWorld {
  w_event : Event;        (* the event object being dispatched *)
  w_isComposing : bool;   (* isComposing.current   (useCallbackOnEnter) *)
  w_canTrigger : bool;    (* canTriggerRef.current (useCallbackOnceUntilReset) *)
  w_ext : Ext;
  w_trace : list Obs
}.

Definition M (A : Type) : Type := World -> completion A * World.

Definition ret {A} (a : A) : M A := fun w => (Normal a, w).

Definition throw {A} (exn : string) : M A := fun w => (Thrown exn, w).

Definition bind {A B} (m : M A) (k : A -> M B) : M B :=
  fun w =>
    match m w with
    | (Normal a, w') => k a w'
    | (Thrown exn, w') => (Thrown exn, w')
    end.

Notation "x <- m ;; k" := (bind m (fun x => k))
  (at level 61, m at next level, right associativity).
Notation "m ;; k" := (bind m (fun _ => k))
  (at level 61, right associativity).

Definition get_event : M Event := fun w => (Normal (w_event w), w).

Definition get_isComposing : M bool := fun w => (Normal (w_isComposing w), w).

Definition set_isComposing (b : bool) : M unit := fun w =>
  (Normal tt, mkWorld (w_event w) b (w_canTrigger w) (w_ext w) (w_trace w)).

Definition get_canTrigger : M bool := fun w => (Normal (w_canTrigger w), w).

Definition set_canTrigger (b : bool) : M unit := fun w =>
  (Normal tt, mkWorld (w_event w) (w_isComposing w) b (w_ext w) (w_trace w)).

(** [h(event)]: the call is recorded, then the body runs on the event object
    and the outside state; the ref cells are out of its reach. *)
Definition call_handler (h : Handler) : M unit := fun w =>
  let r := h_body h (w_event w) (w_ext w) in
  (eff_completion r,
   mkWorld (eff_event r) (w_isComposing w) (w_canTrigger w) (eff_ext r)
           (w_trace w ++ [Invoked (h_name h)])).

(** [t()]. *)
Definition call_thunk (t : Thunk) : M unit := fun w =>
  let r := t_body t (w_ext w) in
  (fst r,
   mkWorld (w_event w) (w_isComposing w) (w_canTrigger w) (snd r)
           (w_trace w ++ [Invoked (t_name t)])).

(** [v(event)] for an array entry [v]: calling [undefined] or [null] is a
    TypeError. *)
Definition js_call (v : Nullable Handler) : M unit :=
  match v with
  | JsValue h => call_handler h
  | _ => throw "TypeError: handler is not a function"
  end.

(** [event.preventDefault()] of the event being dispatched (React's synthetic
    event sets its [defaultPrevented] property). *)
Definition preventDefault : M unit := fun w =>
  let e := w_event w in
  (Normal tt,
   mkWorld (mkEvent (key e) (metaKey e) (ctrlKey e) (shiftKey e) (altKey e) true)
           (w_isComposing w) (w_canTrigger w) (w_ext w)
           (w_trace w ++ [PreventDefault])).

(** ** useChainEventHandlers *)

Record ChainProps : Type := mkChainProps {
  handlers : list (Nullable Handler);
  stopOnDefaultPrevented : option bool
}.

(** The body of the [for (const handler of handlers)] loop, by recursion on
    the entries still to visit; [return] leaves the whole function. *)
Fixpoint chain_loop (stop : option bool) (hs : list (Nullable Handler)) : M unit :=
  match hs with
  | [] => ret tt
  | handler :: rest =>
      event <- get_event ;;
      if truthy stop && defaultPrevented event then ret tt
      else
        (if strict_eq_null handler then ret tt
         else if strict_eq_undefined handler then ret tt
         else js_call handler) ;;
        chain_loop stop rest
  end.

Definition useChainEventHandlers (props : ChainProps) : M unit :=
  chain_loop (stopOnDefaultPrevented props) (handlers props).

(** ** useCallbackOnEnter *)

Record GateProps : Type := mkGateProps {
  callback : Handler;
  allowBasicEnter : bool;
  allowPlatformEnter : bool
}.

Record GateHandlers : Type := mkGateHandlers {
  onKeyDown : M unit;
  onCompositionEnd : M unit;
  onCompositionStart : M unit
}.

(** [userAgent] is [navigator.userAgent] when the hook first runs
    ([useMemo] with no dependencies). *)
Definition useCallbackOnEnter (userAgent : string) (props : GateProps) : GateHandlers :=
  let isMacOs := includes userAgent "Mac" in
  {| onCompositionStart := set_isComposing true;
     onCompositionEnd := set_isComposing false;
     onKeyDown :=
       event <- get_event ;;
       if negb (String.eqb (key event) "Enter") then ret tt else
       composing <- get_isComposing ;;
       if composing then ret tt else
       if negb (allowBasicEnter props) && negb (allowPlatformEnter props) then ret tt else
       let basicEnter :=
         allowBasicEnter props && negb (metaKey event) && negb (ctrlKey event)
           && negb (shiftKey event) && negb (altKey event) in
       let platformEnter :=
         allowPlatformEnter props && (if isMacOs then metaKey event else ctrlKey event) in
       let isValidEnterPress := basicEnter || platformEnter in
       if isValidEnterPress then call_handler (callback props) else ret tt |}.

(** ** useCallbackOnceUntilReset *)

Record OnceHandlers : Type := mkOnceHandlers {
  callbackOnceUntilReset : M unit;
  reset : M unit
}.

Definition useCallbackOnceUntilReset (callback : Thunk) : OnceHandlers :=
  {| reset := set_canTrigger true;
     callbackOnceUntilReset :=
       canTrigger <- get_canTrigger ;;
       if canTrigger then
         call_thunk callback ;;
         set_canTrigger false
       else ret tt |}.

(** ** onFormSubmit (Input) and handleSubmitForm (TextArea) *)

(** A ref object [{ current }] holding a form element (named by a number) or
    nothing. *)
Record RefObject : Type := mkRefObject {
  current : Nullable nat
}.

(** The value of [useFormContext()] as the callback finds it when it is
    called: only [formRef] and its [current] are read. *)
Record FormContext : Type := mkFormContext {
  formRef : Nullable RefObject
}.

(** [form.requestSubmit()]: what submitting does to the outside is the
    browser's and the form's business. *)
Variable dom_requestSubmit : nat -> Ext -> completion unit * Ext.

Definition requestSubmit (form : nat) : M unit := fun w =>
  let r := dom_requestSubmit form (w_ext w) in
  (fst r,
   mkWorld (w_event w) (w_isComposing w) (w_canTrigger w) (snd r)
           (w_trace w ++ [RequestSubmit form])).

(** [formContext.formRef.current]: reading a property of [undefined] or
    [null] is a TypeError. *)
Definition read_current (formContext : FormContext) : M (Nullable nat) :=
  match formRef formContext with
  | JsValue r => ret (current r)
  | _ => throw "TypeError: cannot read properties of undefined (reading 'current')"
  end.

(** [v.requestSubmit()]. *)
Definition js_requestSubmit (v : Nullable nat) : M unit :=
  match v with
  | JsValue form => requestSubmit form
  | _ => throw "TypeError: cannot read properties of null (reading 'requestSubmit')"
  end.

(** [ref !== null && ref !== void 0 && ref.current], as a truth value. *)
Definition formRef_attached (formContext : FormContext) : bool :=
  let _formContext_formRef := formRef formContext in
  negb (strict_eq_null _formContext_formRef)
  && negb (strict_eq_undefined _formContext_formRef)
  && match _formContext_formRef with
     | JsValue r => match current r with JsValue _ => true | _ => false end
     | _ => false
     end.

Definition onFormSubmit (formContext : FormContext) : M unit :=
  if negb (formRef_attached formContext) then ret tt else
  preventDefault ;;
  form <- read_current formContext ;;
  js_requestSubmit form.

Definition handleSubmitForm (formContext : FormContext) : M unit :=
  if negb (formRef_attached formContext) then ret tt else
  preventDefault ;;
  form <- read_current formContext ;;
  js_requestSubmit form.

(** ** The environment of the hooks *)

(** The ref cells as [useRef(false)] and [useRef(true)] create them when the
    component mounts. *)
Definition mount (e : Event) (x : Ext) : World := mkWorld e false true x [].

(** The three kinds of event a text input delivers to the gate, each with
    its own event object. *)
Inductive DomEvent : Type :=
| CompositionStart (e : Event)
| CompositionEnd (e : Event)
| KeyDown (e : Event).

Definition with_event (e : Event) (w : World) : World :=
  mkWorld e (w_isComposing w) (w_canTrigger w) (w_ext w) (w_trace w).

(** The input calls the handler registered for the event's kind. *)
Definition dispatch (g : GateHandlers) (d : DomEvent) : M unit := fun w =>
  match d with
  | CompositionStart e => onCompositionStart g (with_event e w)
  | CompositionEnd e => onCompositionEnd g (with_event e w)
  | KeyDown e => onKeyDown g (with_event e w)
  end.

(** Events are handled one at a time, each to completion; an exception that
    escapes a handler is reported by the browser and the next event is
    delivered all the same. *)
Fixpoint deliver (g : GateHandlers) (ds : list DomEvent) (w : World) : World :=
  match ds with
  | [] => w
  | d :: rest => deliver g rest (snd (dispatch g d w))
  end.

(** The two functions [useCallbackOnceUntilReset] returns, as its client
    calls them. *)
Inductive OnceOp : Type :=
| CallOnce
| Reset.

Definition once_step (o : OnceHandlers) (op : OnceOp) : M unit :=
  match op with
  | CallOnce => callbackOnceUntilReset o
  | Reset => reset o
  end.

Fixpoint once_run (o : OnceHandlers) (ops : list OnceOp) (w : World) : World :=
  match ops with
  | [] => w
  | op :: rest => once_run o rest (snd (once_step o op w))
  end.

(** ** Vocabulary of the properties *)

(** The entries of a handler array that are functions, in order. *)
Fixpoint present (hs : list (Nullable Handler)) : list Handler :=
  match hs with
  | [] => []
  | JsValue h :: rest => h :: present rest
  | _ :: rest => present rest
  end.

Definition absent (v : Nullable Handler) : bool :=
  strict_eq_null v || strict_eq_undefined v.

(** A client function that never throws. *)
Definition returns_normally (h : Handler) : Prop :=
  forall e x, eff_completion (h_body h e x) = Normal tt.

Definition thunk_returns_normally (t : Thunk) : Prop :=
  forall x, fst (t_body t x) = Normal tt.

(** A handler that leaves an unprevented event unprevented. *)
Definition never_prevents (h : Handler) : Prop :=
  forall e x, defaultPrevented e = false ->
              defaultPrevented (eff_event (h_body h e x)) = false.

(** The guard at the head of the loop of [useChainEventHandlers]. *)
Definition short_circuits (stop : option bool) (w : World) : bool :=
  truthy stop && defaultPrevented (w_event w).

(** No modifier key is held. *)
Definition modifierless (e : Event) : bool :=
  negb (metaKey e) && negb (ctrlKey e) && negb (shiftKey e) && negb (altKey e).

Definition is_compositionend (d : DomEvent) : bool :=
  match d with CompositionEnd _ => true | _ => false end.

(** An IME composition is open at the end of [ds]: some [compositionstart]
    of [ds] has no [compositionend] after it. *)
Definition composition_open (ds : list DomEvent) : Prop :=
  exists before e after,
    ds = before ++ CompositionStart e :: after
    /\ forallb (fun d => negb (is_compositionend d)) after = true.

Definition is_reset (op : OnceOp) : bool :=
  match op with Reset => true | CallOnce => false end.

(** The wrapped callback was already asked for since the last reset (or
    since creation): some [CallOnce] of [ops] has no [Reset] after it. *)
Definition called_since_reset (ops : list OnceOp) : Prop :=
  exists before after,
    ops = before ++ CallOnce :: after
    /\ forallb (fun op => negb (is_reset op)) after = true.

End Model.

(** ** Sample clients

    Concrete events and client functions, over an outside state that counts
    the calls that returned. *)

Definition enter (meta ctrl shift alt : bool) : Event :=
  mkEvent "Enter" meta ctrl shift alt false.

Definition plain_enter : Event := enter false false false false.

Definition letter_a : Event := mkEvent "a" false false false false false.

Definition prevented (e : Event) : Event :=
  mkEvent (key e) (metaKey e) (ctrlKey e) (shiftKey e) (altKey e) true.

(** A handler that counts its call and touches nothing else. *)
Definition h_count (name : nat) : @Handler nat :=
  mkHandler name (fun e x => mkEffect (Normal tt) e (S x)).

(** A handler that calls [event.preventDefault()]. *)
Definition h_prevent (name : nat) : @Handler nat :=
  mkHandler name (fun e x => mkEffect (Normal tt) (prevented e) (S x)).

(** A handler that throws. *)
Definition h_throw (name : nat) : @Handler nat :=
  mkHandler name (fun e x => mkEffect (Thrown "Error: boom") e x).

Definition t_count (name : nat) : @Thunk nat :=
  mkThunk name (fun x => (Normal tt, S x)).

Definition t_throw (name : nat) : @Thunk nat :=
  mkThunk name (fun x => (Thrown "Error: boom", x)).

(** A callback that throws the first time it is called (outside state 0)
    and returns from then on. *)
Definition t_fail_first (name : nat) : @Thunk nat :=
  mkThunk name
    (fun x => match x with
              | 0 => (Thrown "Error: boom", 1)
              | S _ => (Normal tt, S x)
              end).

(** A browser that accepts every submission. *)
Definition submit_ok (form : nat) (x : nat) : completion unit * nat :=
  (Normal tt, x).

Definition mac_userAgent : string :=
  "Mozilla/5.0 (Macintosh; Intel Mac OS X 10_15_7) AppleWebKit/537.36".

Definition windows_userAgent : string :=
  "Mozilla/5.0 (Windows NT 10.0; Win64; x64) AppleWebKit/537.36".

From Stdlib Require Import Lia.

(** ** Vocabulary of the properties, continued *)

Section MoreVocabulary.

Context {Ext : Type}.

(** A client function that throws whenever it is called. *)
Definition thunk_always_throws (t : @Thunk Ext) : Prop :=
  forall x, exists exn, fst (t_body t x) = Thrown exn.

(** The calls a chain made, as they appear in the trace. *)
Definition invocations (hs : list (@Handler Ext)) : list Obs :=
  map (fun h => Invoked (h_name h)) hs.

(** [onKeyDown] of a gate invoked the callback [cb] (once) on [w]. *)
Definition fires (cb : @Handler Ext) (m : @M Ext unit) (w : @World Ext) : Prop :=
  w_trace (snd (m w)) = w_trace w ++ [Invoked (h_name cb)].

(** The form attached to the form context's ref, if any. *)
Definition attached_form (formContext : FormContext) : option nat :=
  match formRef formContext with
  | JsValue r => match current r with JsValue form => Some form | _ => None end
  | _ => None
  end.

(** What a submit callback adds to the trace. *)
Definition submission (formContext : FormContext) : list Obs :=
  match attached_form formContext with
  | Some form => [PreventDefault; RequestSubmit form]
  | None => []
  end.

(** What calling an optional handler of the client adds to the trace. *)
Definition optional_invocation (v : Nullable (@Handler Ext)) : list Obs :=
  match v with
  | JsValue h => [Invoked (h_name h)]
  | _ => []
  end.

(** An Enter press that a gate with these permissions accepts when no
    composition is open: Enter with no modifier if the basic Enter is
    allowed, Enter with the platform's modifier if the platform Enter is. *)
Definition accepted_enter (userAgent : string) (allowBasic allowPlatform : bool)
    (e : Event) : bool :=
  String.eqb (key e) "Enter"
  && ((allowBasic && modifierless e)
      || (allowPlatform
          && (if includes userAgent "Mac" then metaKey e else ctrlKey e))).

(** A browser whose [requestSubmit] returns. *)
Definition submit_returns (dom_requestSubmit : nat -> Ext -> completion unit * Ext) : Prop :=
  forall form x, fst (dom_requestSubmit form x) = Normal tt.

End MoreVocabulary.

(** * The components that use the hooks

    [Input] (lines 374-472) and [TextArea] (lines 505-599) hand functions of
    the bundle itself to the hooks: the gate's callback is [onFormSubmit] or
    [handleSubmitForm], and the chains start with a handler of the gate. *)

Section Callables.

Context {Ext : Type}.

Local Notation "x <- m ;; k" := (bind m (fun x => k))
  (at level 61, m at next level, right associativity).
Local Notation "m ;; k" := (bind m (fun _ => k))
  (at level 61, right associativity).

(** A function as the hooks receive it: one the bundle defines, a closure
    over the hooks' cells that runs in the monad, or one the client passed
    in. *)
Inductive Fn : Type :=
| Bundle (m : @M Ext unit)
| Client (h : @Handler Ext).

(** [f(event)]. *)
Definition call_fn (f : Fn) : M unit :=
  match f with
  | Bundle m => m
  | Client h => call_handler h
  end.

Definition js_call_any (v : Nullable Fn) : M unit :=
  match v with
  | JsValue f => call_fn f
  | _ => throw "TypeError: handler is not a function"
  end.

(** [useChainEventHandlers] (lines 233-247) over such functions. *)
Fixpoint chain_loop_any (stop : option bool) (hs : list (Nullable Fn)) : M unit :=
  match hs with
  | [] => ret tt
  | handler :: rest =>
      event <- get_event ;;
      if truthy stop && defaultPrevented event then ret tt
      else
        (if strict_eq_null handler then ret tt
         else if strict_eq_undefined handler then ret tt
         else js_call_any handler) ;;
        chain_loop_any stop rest
  end.

Definition useChainEventHandlers_any
    (handlers : list (Nullable Fn)) (stopOnDefaultPrevented : option bool) : M unit :=
  chain_loop_any stopOnDefaultPrevented handlers.

(** [useCallbackOnEnter] (lines 87-130) over such a callback. *)
Definition useCallbackOnEnter_any (userAgent : string) (callback : Fn)
    (allowBasicEnter allowPlatformEnter : bool) : GateHandlers :=
  let isMacOs := includes userAgent "Mac" in
  {| onCompositionStart := set_isComposing true;
     onCompositionEnd := set_isComposing false;
     onKeyDown :=
       event <- get_event ;;
       if negb (String.eqb (key event) "Enter") then ret tt else
       composing <- get_isComposing ;;
       if composing then ret tt else
       if negb allowBasicEnter && negb allowPlatformEnter then ret tt else
       let basicEnter :=
         allowBasicEnter && negb (metaKey event) && negb (ctrlKey event)
           && negb (shiftKey event) && negb (altKey event) in
       let platformEnter :=
         allowPlatformEnter && (if isMacOs then metaKey event else ctrlKey event) in
       let isValidEnterPress := basicEnter || platformEnter in
       if isValidEnterPress then call_fn callback else ret tt |}.

(** A prop of the client as an entry of a handler array. *)
Definition client_entry (v : Nullable (@Handler Ext)) : Nullable Fn :=
  match v with
  | JsUndefined => JsUndefined
  | JsNull => JsNull
  | JsValue h => JsValue (Client h)
  end.

(** [f === null || f === void 0 || f(event)]. *)
Definition call_if_present (v : Nullable (@Handler Ext)) : M unit :=
  if strict_eq_null v then ret tt
  else if strict_eq_undefined v then ret tt
  else js_call v.

(** [f === null || f === void 0 || f()]. *)
Definition call_thunk_if_present (v : Nullable (@Thunk Ext)) : M unit :=
  if strict_eq_null v then ret tt
  else if strict_eq_undefined v then ret tt
  else match v with
       | JsValue t => call_thunk t
       | _ => throw "TypeError: onClear is not a function"
       end.

(** ** Change events *)

(** What [handleChange] reads of a change event: [e.target.value], and
    whether [e.nativeEvent instanceof InputEvent]. *)
Record ChangeEvent : Type := mkChangeEvent {
  target_value : string;
  nativeEvent_isInputEvent : bool
}.

Record ChangeEffect : Type := mkChangeEffect {
  ceff_completion : completion unit;
  ceff_event : ChangeEvent;
  ceff_ext : Ext
}.

(** An [onChange] handler of the client: like a [Handler], on change
    events. *)
Record ChangeHandler : Type := mkChangeHandler {
  ch_name : nat;
  ch_body : ChangeEvent -> Ext -> ChangeEffect
}.

(** [h(e)], giving back the event object as the handler left it. *)
Definition call_change_handler (h : ChangeHandler) (e : ChangeEvent) : M ChangeEvent :=
  fun w =>
    let r := ch_body h e (w_ext w) in
    (match ceff_completion r with
     | Normal _ => Normal (ceff_event r)
     | Thrown exn => Thrown exn
     end,
     mkWorld (w_event w) (w_isComposing w) (w_canTrigger w) (ceff_ext r)
             (w_trace w ++ [Invoked (ch_name h)])).

(** [onChange === null || onChange === void 0 || onChange(e)]. *)
Definition call_change_if_present (v : Nullable ChangeHandler) (e : ChangeEvent)
    : M ChangeEvent :=
  if strict_eq_null v then ret e
  else if strict_eq_undefined v then ret e
  else match v with
       | JsValue h => call_change_handler h e
       | _ => throw "TypeError: onChange is not a function"
       end.

(** Truthiness of a string, and of a prop that is a function or absent. *)
Definition Boolean (s : string) : bool := negb (String.eqb s "").

Definition is_set {A} (v : Nullable A) : bool :=
  match v with JsValue _ => true | _ => false end.

(** What a text field is told: it got the focus, its value changed, or one
    of the three events of the gate arrived (for [Input], [KeyDown] stands
    for the [onPressEnter] call of the underlying input). *)
Inductive FieldEvent : Type :=
| Focus (e : Event)
| Change (e : ChangeEvent)
| Key (d : DomEvent).

(** The gate's events among those of a field. *)
Definition key_events (evs : list FieldEvent) : list DomEvent :=
  flat_map (fun ev => match ev with Key d => [d] | _ => [] end) evs.

(** The value changed since the field last got the focus (or since it was
    mounted): some [Change] of [evs] has no [Focus] after it. *)
Definition is_focus (ev : FieldEvent) : bool :=
  match ev with Focus _ => true | _ => false end.

Definition changed_since_focus (evs : list FieldEvent) : Prop :=
  exists before e after,
    evs = before ++ Change e :: after
    /\ forallb (fun ev => negb (is_focus ev)) after = true.

(** A computation that leaves the two cells of the hooks (the composition
    flag and the once-flag) as it found them. *)
Definition keeps_cells {A} (m : @M Ext A) : Prop :=
  forall w,
    w_isComposing (snd (m w)) = w_isComposing w
    /\ w_canTrigger (snd (m w)) = w_canTrigger w.

(** An [onChange] handler that leaves [e.target.value] alone. *)
Definition keeps_value (v : Nullable ChangeHandler) : Prop :=
  forall h, v = JsValue h ->
  forall e x, target_value (ceff_event (ch_body h e x)) = target_value e.

(** What the change part of [handleChange] of [Input] adds to the trace:
    the call of [onClear] when the field was emptied by something else than
    typing and [onClear] is set, the call of [onChange] (if set) otherwise. *)
Definition change_invocation (onClear : Nullable (@Thunk Ext))
    (onChange : Nullable ChangeHandler) (e : ChangeEvent) : list Obs :=
  if negb (Boolean (target_value e))
     && negb (nativeEvent_isInputEvent e)
     && is_set onClear
  then match onClear with JsValue t => [Invoked (t_name t)] | _ => [] end
  else match onChange with JsValue h => [Invoked (ch_name h)] | _ => [] end.

End Callables.

(** ** Input (lines 374-472) *)

Module Input.

Section Component.

Context {Ext : Type}.

(** [navigator.userAgent], and what [requestSubmit] does outside. *)
Variable userAgent : string.
Variable dom_requestSubmit : nat -> Ext -> completion unit * Ext.

Local Notation "x <- m ;; k" := (bind m (fun x => k))
  (at level 61, m at next level, right associativity).
Local Notation "m ;; k" := (bind m (fun _ => k))
  (at level 61, right associativity).

(** What one render of the component closes its handlers over: the props
    the handlers use, the form context and the analytics callback
    [eventContext.onValueChange]. *)
Record Render : Type := mkRender {
  props_onChange : Nullable (@ChangeHandler Ext);
  props_onClear : Nullable (@Thunk Ext);
  props_onFocus : Nullable (@Handler Ext);
  props_onPressEnter : Nullable (@Handler Ext);
  props_onCompositionStart : Nullable (@Handler Ext);
  props_onCompositionEnd : Nullable (@Handler Ext);
  formContext : FormContext;
  eventContext_onValueChange : @Thunk Ext
}.

(** The component's own state [hasValue] beside the world of the hooks. *)
Record State : Type := mkState {
  hasValue : bool;
  world : @World Ext
}.

Definition MI (A : Type) : Type := State -> completion A * State.

Definition bindI {A B} (m : MI A) (k : A -> MI B) : MI B :=
  fun s =>
    match m s with
    | (Normal a, s') => k a s'
    | (Thrown exn, s') => (Thrown exn, s')
    end.

Local Notation "x <- m ;;; k" := (bindI m (fun x => k))
  (at level 61, m at next level, right associativity).
Local Notation "m ;;; k" := (bindI m (fun _ => k))
  (at level 61, right associativity).

(** A computation of the hooks, run inside the component. *)
Definition lift {A} (m : @M Ext A) : MI A :=
  fun s => let r := m (world s) in (fst r, mkState (hasValue s) (snd r)).

Definition setHasValue (b : bool) : MI unit :=
  fun s => (Normal tt, mkState b (world s)).

Definition sendAnalyticsEventOncePerFocus (r : Render) : M unit :=
  callbackOnceUntilReset (useCallbackOnceUntilReset (eventContext_onValueChange r)).

Definition resetSendAnalyticsEventOnFocus (r : Render) : M unit :=
  reset (useCallbackOnceUntilReset (eventContext_onValueChange r)).

Definition handleChange (r : Render) (e : ChangeEvent) : MI unit :=
  lift (sendAnalyticsEventOncePerFocus r) ;;;
  if negb (Boolean (target_value e))
     && Bool.eqb (nativeEvent_isInputEvent e) false
     && is_set (props_onClear r)
  then
    lift (call_thunk_if_present (props_onClear r)) ;;;
    setHasValue false
  else
    e' <- lift (call_change_if_present (props_onChange r) e) ;;;
    setHasValue (Boolean (target_value e')).

Definition handleFocus (r : Render) : M unit :=
  resetSendAnalyticsEventOnFocus r ;;
  call_if_present (props_onFocus r).

Definition submitHandlers (r : Render) : GateHandlers :=
  useCallbackOnEnter_any userAgent
    (Bundle (onFormSubmit dom_requestSubmit (formContext r))) true true.

Definition onPressEnterChain (r : Render) : M unit :=
  useChainEventHandlers_any
    [JsValue (Bundle (onKeyDown (submitHandlers r)));
     client_entry (props_onPressEnter r)]
    (Some false).

Definition onCompositionStartChain (r : Render) : M unit :=
  useChainEventHandlers_any
    [JsValue (Bundle (onCompositionStart (submitHandlers r)));
     client_entry (props_onCompositionStart r)]
    None.

Definition onCompositionEndChain (r : Render) : M unit :=
  useChainEventHandlers_any
    [JsValue (Bundle (onCompositionEnd (submitHandlers r)));
     client_entry (props_onCompositionEnd r)]
    None.

(** The underlying input calls the handler of the event's kind, built by
    the latest render; the cells of the hooks and [hasValue] live on from
    one render to the next. *)
Definition dispatch (r : Render) (ev : FieldEvent) : MI unit :=
  match ev with
  | Focus e => lift (fun w => handleFocus r (with_event e w))
  | Change e => handleChange r e
  | Key (KeyDown e) => lift (fun w => onPressEnterChain r (with_event e w))
  | Key (CompositionStart e) =>
      lift (fun w => onCompositionStartChain r (with_event e w))
  | Key (CompositionEnd e) =>
      lift (fun w => onCompositionEndChain r (with_event e w))
  end.

Fixpoint deliver (evs : list (Render * FieldEvent)) (s : State) : State :=
  match evs with
  | [] => s
  | (r, ev) :: rest => deliver rest (snd (dispatch r ev s))
  end.

End Component.

End Input.

(** ** TextArea (lines 505-599) *)

Module TextArea.

Section Component.

Context {Ext : Type}.

Variable userAgent : string.
Variable dom_requestSubmit : nat -> Ext -> completion unit * Ext.

Local Notation "x <- m ;; k" := (bind m (fun x => k))
  (at level 61, m at next level, right associativity).
Local Notation "m ;; k" := (bind m (fun _ => k))
  (at level 61, right associativity).

Record Render : Type := mkRender {
  props_onChange : Nullable (@ChangeHandler Ext);
  props_onFocus : Nullable (@Handler Ext);
  props_onKeyDown : Nullable (@Handler Ext);
  props_onCompositionStart : Nullable (@Handler Ext);
  props_onCompositionEnd : Nullable (@Handler Ext);
  props_allowFormSubmitOnEnter : option bool;
  formContext : FormContext;
  eventContext_onValueChange : @Thunk Ext
}.

(** [allowFormSubmitOnEnter = false] in the parameter list: the default
    stands in for [undefined]. *)
Definition allowFormSubmitOnEnter (r : Render) : bool :=
  match props_allowFormSubmitOnEnter r with
  | Some b => b
  | None => false
  end.

Definition sendAnalyticsEventOncePerFocus (r : Render) : M unit :=
  callbackOnceUntilReset (useCallbackOnceUntilReset (eventContext_onValueChange r)).

Definition resetSendAnalyticsEventOnFocus (r : Render) : M unit :=
  reset (useCallbackOnceUntilReset (eventContext_onValueChange r)).

Definition handleChange (r : Render) (e : ChangeEvent) : M unit :=
  sendAnalyticsEventOncePerFocus r ;;
  call_change_if_present (props_onChange r) e ;;
  ret tt.

Definition handleFocus (r : Render) : M unit :=
  resetSendAnalyticsEventOnFocus r ;;
  call_if_present (props_onFocus r).

Definition submitHandlers (r : Render) : GateHandlers :=
  useCallbackOnEnter_any userAgent
    (Bundle (handleSubmitForm dom_requestSubmit (formContext r)))
    (allowFormSubmitOnEnter r) true.

Definition onKeyDownChain (r : Render) : M unit :=
  useChainEventHandlers_any
    [JsValue (Bundle (onKeyDown (submitHandlers r)));
     client_entry (props_onKeyDown r)]
    (Some true).

Definition onCompositionStartChain (r : Render) : M unit :=
  useChainEventHandlers_any
    [JsValue (Bundle (onCompositionStart (submitHandlers r)));
     client_entry (props_onCompositionStart r)]
    None.

Definition onCompositionEndChain (r : Render) : M unit :=
  useChainEventHandlers_any
    [JsValue (Bundle (onCompositionEnd (submitHandlers r)));
     client_entry (props_onCompositionEnd r)]
    None.

Definition dispatch (r : Render) (ev : FieldEvent) : M unit := fun w =>
  match ev with
  | Focus e => handleFocus r (with_event e w)
  | Change e => handleChange r e w
  | Key (KeyDown e) => onKeyDownChain r (with_event e w)
  | Key (CompositionStart e) => onCompositionStartChain r (with_event e w)
  | Key (CompositionEnd e) => onCompositionEndChain r (with_event e w)
  end.

Fixpoint deliver (evs : list (Render * FieldEvent)) (w : @World Ext) : @World Ext :=
  match evs with
  | [] => w
  | (r, ev) :: rest => deliver rest (snd (dispatch r ev w))
  end.

End Component.

End TextArea.

(** ** Sample renders *)

(** An [onChange] handler that counts its call. *)
Definition ch_count (name : nat) : @ChangeHandler nat :=
  mkChangeHandler name (fun e x => mkChangeEffect (Normal tt) e (S x)).

Definition typed_a : ChangeEvent := mkChangeEvent "a" true.

Definition cleared_by_button : ChangeEvent := mkChangeEvent "" false.

Definition form_3 : FormContext :=
  mkFormContext (JsValue (mkRefObject (JsValue 3))).

(** An Input in form 3 with [onChange] 11, [onClear] 12, [onPressEnter] 13
    and the analytics callback 10. *)
Definition sample_input : @Input.Render nat :=
  Input.mkRender (JsValue (ch_count 11)) (JsValue (t_count 12)) JsUndefined
    (JsValue (h_count 13)) JsUndefined JsUndefined form_3 (t_count 10).

(** A TextArea in form 3 with [onChange] 21, [onKeyDown] 23 and the
    analytics callback 20; [allowFormSubmitOnEnter] is left out. *)
Definition sample_textarea : @TextArea.Render nat :=
  TextArea.mkRender (JsValue (ch_count 21)) JsUndefined (JsValue (h_count 23))
    JsUndefined JsUndefined None form_3 (t_count 20).

(** * Properties *)

Section Properties.

Context {Ext : Type}.

Local Abbreviation World := (@World Ext).
Local Abbreviation Handler := (@Handler Ext).
Local Abbreviation Thunk := (@Thunk Ext).

Implicit Types (w : World) (h : Handler) (hs : list (Nullable Handler))
  (stop : option bool).

(** ** The monad *)

Lemma bind_ret_r (m : M unit) w : bind m (fun _ => ret tt) w = m w.
Proof.
  unfold bind, ret. destruct (m w) as [[[]|exn] w']; reflexivity.
Qed.

(** ** useChainEventHandlers *)

(** One turn of the loop. *)
Lemma chain_loop_cons stop (v : Nullable Handler) hs w :
  chain_loop stop (v :: hs) w =
  if short_circuits stop w then (Normal tt, w)
  else match v with
       | JsValue h =>
           match call_handler h w with
           | (Normal _, w') => chain_loop stop hs w'
           | (Thrown exn, w') => (Thrown exn, w')
           end
       | _ => chain_loop stop hs w
       end.
Proof.
  unfold short_circuits. cbn [chain_loop]. unfold bind, get_event, ret.
  destruct (truthy stop && defaultPrevented (w_event w)); [reflexivity|].
  destruct v; reflexivity.
Qed.

(** Once the guard holds the loop does nothing more. *)
Lemma chain_loop_short_circuit stop hs w :
  short_circuits stop w = true -> chain_loop stop hs w = (Normal tt, w).
Proof.
  intros G. destruct hs as [|v hs]; [reflexivity|].
  rewrite chain_loop_cons, G. reflexivity.
Qed.

Lemma chain_loop_absent stop (v : Nullable Handler) hs w :
  absent v = true -> chain_loop stop (v :: hs) w = chain_loop stop hs w.
Proof.
  intros A. rewrite chain_loop_cons.
  destruct (short_circuits stop w) eqn:G.
  - symmetry. now apply chain_loop_short_circuit.
  - destruct v; [reflexivity|reflexivity|discriminate A].
Qed.

Lemma chain_loop_present_only stop hs w :
  chain_loop stop hs w = chain_loop stop (map JsValue (present hs)) w.
Proof.
  revert w. induction hs as [|v hs IH]; intros w; [reflexivity|].
  destruct v as [| |h].
  - rewrite chain_loop_absent by reflexivity. apply IH.
  - rewrite chain_loop_absent by reflexivity. apply IH.
  - cbn [present map]. rewrite !chain_loop_cons.
    destruct (short_circuits stop w); [reflexivity|].
    destruct (call_handler h w) as [[u|exn] w']; [apply IH|reflexivity].
Qed.


Lemma chain_loop_no_throw stop hs w :
  Forall returns_normally (present hs) ->
  fst (chain_loop stop hs w) = Normal tt.
Proof.
  revert w. induction hs as [|v hs IH]; intros w N; [reflexivity|].
  rewrite chain_loop_cons. destruct (short_circuits stop w); [reflexivity|].
  destruct v as [| |h]; cbn [present] in N; try now apply IH.
  inversion N as [|? ? Nh Nrest]; subst.
  unfold call_handler. rewrite (Nh (w_event w) (w_ext w)). now apply IH.
Qed.

Lemma chain_loop_invokes_all stop hs w :
  Forall returns_normally (present hs) ->
  truthy stop = false
  \/ (defaultPrevented (w_event w) = false /\ Forall never_prevents (present hs)) ->
  w_trace (snd (chain_loop stop hs w))
  = w_trace w ++ map (fun h => Invoked (h_name h)) (present hs).
Proof.
  revert w. induction hs as [|v hs IH]; intros w N G.
  - cbn. now rewrite app_nil_r.
  - assert (short_circuits stop w = false) as G0.
    { unfold short_circuits. destruct G as [->|[-> _]]; [reflexivity|].
      apply andb_false_r. }
    rewrite chain_loop_cons, G0.
    destruct v as [| |h]; cbn [present] in *; try now apply IH.
    inversion N as [|? ? Nh Nrest]; subst.
    unfold call_handler. rewrite (Nh (w_event w) (w_ext w)).
    rewrite IH; cbn.
    + now rewrite <- app_assoc.
    + assumption.
    + destruct G as [G|[G1 G2]]; [now left|right].
      inversion G2 as [|? ? Ph Prest]; subst. split; [now apply Ph|assumption].
Qed.


(** C6: an Event Chain over two present handlers [h1; h2], called with an
    event whose default-prevented flag is clear. With
    [stopOnDefaultPrevented] true, if [h1] sets the flag then the chain does
    what calling [h1] alone does: [h2] is not invoked. With
    [stopOnDefaultPrevented] false (or left out), once [h1] has returned the
    chain calls [h2] on what [h1] left, whether or not [h1] set the flag. *)
Theorem chain_two_handlers h1 h2 stop w :
  defaultPrevented (w_event w) = false ->
  let r1 := h_body h1 (w_event w) (w_ext w) in
  let r := useChainEventHandlers (mkChainProps [JsValue h1; JsValue h2] stop) w in
  (stop = Some true -> defaultPrevented (eff_event r1) = true ->
     r = call_handler h1 w
     /\ w_trace (snd r) = w_trace w ++ [Invoked (h_name h1)])
  /\
  (truthy stop = false -> eff_completion r1 = Normal tt ->
     r = call_handler h2 (snd (call_handler h1 w))
     /\ w_trace (snd r)
        = w_trace w ++ [Invoked (h_name h1); Invoked (h_name h2)]).
Proof.
  intros Clear. cbv zeta.
  unfold useChainEventHandlers. cbn [stopOnDefaultPrevented handlers].
  assert (short_circuits stop w = false) as Go
    by (unfold short_circuits; rewrite Clear; apply andb_false_r).
  split.
  - intros -> Set1.
    assert (chain_loop (Some true) [JsValue h1; JsValue h2] w
            = call_handler h1 w) as ->.
    { rewrite chain_loop_cons, Go.
      assert (chain_loop (Some true) [JsValue h2] (snd (call_handler h1 w))
              = (Normal tt, snd (call_handler h1 w))) as Stop
        by (apply chain_loop_short_circuit; exact Set1).
      revert Stop. unfold call_handler. cbn [snd].
      destruct (eff_completion (h_body h1 (w_event w) (w_ext w))) as [[]|exn];
        [intros ->|]; reflexivity. }
    split; reflexivity.
  - intros Off Ret1.
    assert (chain_loop stop [JsValue h1; JsValue h2] w
            = call_handler h2 (snd (call_handler h1 w))) as ->.
    { rewrite chain_loop_cons, Go.
      unfold call_handler at 1 3. cbn [snd]. rewrite Ret1.
      rewrite chain_loop_cons.
      assert (forall w', short_circuits stop w' = false) as ->
        by (intros w'; unfold short_circuits; now rewrite Off).
      cbn [chain_loop].
      match goal with |- _ = call_handler h2 ?w1 =>
        change (bind (call_handler h2) (fun _ => ret tt) w1
                = call_handler h2 w1) end.
      apply bind_ret_r. }
    split; [reflexivity|]. cbn. now rewrite <- app_assoc.
Qed.

(** C7: absent entries of the handler array are skipped. The chain does
    exactly what it does on the array with the absent entries deleted; it
    throws no error of its own (if the present handlers return, so does the
    chain); when the short-circuit rule never fires, every present handler is
    invoked, in order; and with an absent [h1] and a present [h2] the chain
    is a call of [h2], unless the short-circuit rule stops it before. *)
Theorem chain_skips_absent hs stop w :
  let run hs' := useChainEventHandlers (mkChainProps hs' stop) w in
  run hs = run (map JsValue (present hs))
  /\ (Forall returns_normally (present hs) -> fst (run hs) = Normal tt)
  /\ (Forall returns_normally (present hs) ->
      truthy stop = false
      \/ (defaultPrevented (w_event w) = false
          /\ Forall never_prevents (present hs)) ->
      w_trace (snd (run hs))
      = w_trace w ++ map (fun h => Invoked (h_name h)) (present hs))
  /\ (forall (v : Nullable Handler) h2, absent v = true ->
      run [v; JsValue h2]
      = if truthy stop && defaultPrevented (w_event w)
        then (Normal tt, w) else call_handler h2 w).
Proof.
  cbv zeta. unfold useChainEventHandlers. cbn [stopOnDefaultPrevented handlers].
  split; [apply chain_loop_present_only|].
  split; [apply chain_loop_no_throw|].
  split; [apply chain_loop_invokes_all|].
  intros v h2 A. rewrite chain_loop_absent by exact A.
  rewrite chain_loop_cons. unfold short_circuits.
  destruct (truthy stop && defaultPrevented (w_event w)); [reflexivity|].
  cbn [chain_loop].
  change (bind (call_handler h2) (fun _ => ret tt) w = call_handler h2 w).
  apply bind_ret_r.
Qed.

(** ** useCallbackOnEnter *)

(** The decision [onKeyDown] takes, in one expression. *)
Lemma onKeyDown_decision ua (props : @GateProps Ext) w :
  onKeyDown (useCallbackOnEnter ua props) w =
  let e := w_event w in
  if String.eqb (key e) "Enter"
     && negb (w_isComposing w)
     && ((allowBasicEnter props && modifierless e)
         || (allowPlatformEnter props
             && (if includes ua "Mac" then metaKey e else ctrlKey e)))
  then call_handler (callback props) w
  else (Normal tt, w).
Proof.
  unfold useCallbackOnEnter, modifierless. cbn [onKeyDown].
  unfold bind, get_event, get_isComposing, ret. cbv zeta.
  destruct (String.eqb (key (w_event w)) "Enter"); cbn [negb andb]; [|reflexivity].
  destruct (w_isComposing w); cbn [negb andb]; [reflexivity|].
  destruct (allowBasicEnter props), (allowPlatformEnter props),
    (metaKey (w_event w)), (ctrlKey (w_event w)),
    (shiftKey (w_event w)), (altKey (w_event w)), (includes ua "Mac");
    reflexivity.
Qed.

Lemma onKeyDown_composing ua (props : @GateProps Ext) w :
  w_isComposing w = true ->
  onKeyDown (useCallbackOnEnter ua props) w = (Normal tt, w).
Proof.
  intros C. rewrite onKeyDown_decision. cbv zeta. rewrite C.
  now rewrite andb_false_r.
Qed.

(** What one delivered event does to the composition flag. *)
Lemma dispatch_isComposing ua (props : @GateProps Ext) d w :
  w_isComposing (snd (dispatch (useCallbackOnEnter ua props) d w)) =
  match d with
  | CompositionStart _ => true
  | CompositionEnd _ => false
  | KeyDown _ => w_isComposing w
  end.
Proof.
  destruct d as [e|e|e]; cbn [dispatch]; try reflexivity.
  rewrite onKeyDown_decision. cbv zeta.
  match goal with |- context [if ?b then _ else _] => destruct b end;
    reflexivity.
Qed.

Lemma deliver_snoc (g : @GateHandlers Ext) ds d w :
  deliver g (ds ++ [d]) w = snd (dispatch g d (deliver g ds w)).
Proof.
  revert w. induction ds as [|d0 ds IH]; intros w; [reflexivity|].
  cbn [app deliver]. apply IH.
Qed.

(** Splitting a list that ends in [d] around one of its elements. *)
Lemma split_snoc {A} (before after ds : list A) (x d : A) :
  before ++ x :: after = ds ++ [d] ->
  (after = [] /\ before = ds /\ x = d)
  \/ exists after', after = after' ++ [d] /\ ds = before ++ x :: after'.
Proof.
  intros E. destruct after as [|a after] using rev_ind.
  - left. apply app_inj_tail in E. tauto.
  - right. exists after. clear IHafter.
    change (before ++ x :: after ++ [a]) with (before ++ (x :: after) ++ [a]) in E.
    rewrite app_assoc in E. apply app_inj_tail in E as [E1 E2].
    subst. split; reflexivity.
Qed.

Lemma composition_open_start ds e : composition_open (ds ++ [CompositionStart e]).
Proof. exists ds, e, []. split; reflexivity. Qed.

Lemma composition_open_end ds e : ~ composition_open (ds ++ [CompositionEnd e]).
Proof.
  intros (before & e0 & after & E & NoEnd). symmetry in E.
  apply split_snoc in E as [(_ & _ & E)|(after' & -> & _)]; [discriminate E|].
  rewrite forallb_app in NoEnd. cbn in NoEnd.
  now rewrite andb_false_r in NoEnd.
Qed.

Lemma composition_open_keydown ds e :
  composition_open (ds ++ [KeyDown e]) <-> composition_open ds.
Proof.
  split.
  - intros (before & e0 & after & E & NoEnd). symmetry in E.
    apply split_snoc in E as [(_ & _ & E)|(after' & -> & ->)]; [discriminate E|].
    exists before, e0, after'. split; [reflexivity|].
    rewrite forallb_app in NoEnd. now apply andb_prop in NoEnd.
  - intros (before & e0 & after & -> & NoEnd).
    exists before, e0, (after ++ [KeyDown e]). split.
    + now rewrite <- app_assoc.
    + rewrite forallb_app, NoEnd. reflexivity.
Qed.

Lemma deliver_isComposing ua (props : @GateProps Ext) ds w0 :
  w_isComposing w0 = false ->
  w_isComposing (deliver (useCallbackOnEnter ua props) ds w0) = true
  <-> composition_open ds.
Proof.
  intros Init. induction ds as [|d ds IH] using rev_ind.
  - cbn [deliver]. rewrite Init. split; [discriminate|].
    intros (before & e & after & E & _). now destruct before.
  - rewrite deliver_snoc, dispatch_isComposing. destruct d as [e|e|e].
    + split; [intros _; apply composition_open_start|reflexivity].
    + split; [discriminate|]. intros O. now apply composition_open_end in O.
    + rewrite composition_open_keydown. exact IH.
Qed.

(** C2: for every gate and every sequence of compositionstart,
    compositionend and keydown events delivered to it from its creation, the
    Composition State flag is true exactly when a composition is open (some
    compositionstart has no compositionend after it; so it is false at
    first and outside compositions), and while it is true a keydown (Enter
    with any modifiers, under any configuration and platform) does not
    invoke the callback: handling it changes nothing. *)
Theorem gate_composition_invariant ua (props : @GateProps Ext) ds w0 :
  w_isComposing w0 = false ->
  let g := useCallbackOnEnter ua props in
  let w := deliver g ds w0 in
  (w_isComposing w = true <-> composition_open ds)
  /\ (composition_open ds ->
      forall e,
        dispatch g (KeyDown e) w = (Normal tt, with_event e w)
        /\ w_trace (snd (dispatch g (KeyDown e) w)) = w_trace w).
Proof.
  intros Init. cbv zeta.
  pose proof (deliver_isComposing ua props ds w0 Init) as Inv.
  split; [exact Inv|].
  intros Open e. apply Inv in Open.
  assert (dispatch (useCallbackOnEnter ua props) (KeyDown e)
            (deliver (useCallbackOnEnter ua props) ds w0)
          = (Normal tt, with_event e (deliver (useCallbackOnEnter ua props) ds w0)))
    as -> by (cbn [dispatch]; apply onKeyDown_composing; exact Open).
  split; reflexivity.
Qed.

(** C3: under every configuration, platform and composition state, a
    keydown whose key is not "Enter" does not invoke the callback: the
    handler returns and nothing has changed. *)
Theorem gate_ignores_other_keys ua (props : @GateProps Ext) w :
  key (w_event w) <> "Enter" ->
  onKeyDown (useCallbackOnEnter ua props) w = (Normal tt, w).
Proof.
  intros NotEnter. apply String.eqb_neq in NotEnter.
  rewrite onKeyDown_decision. cbv zeta. now rewrite NotEnter.
Qed.

(** C4: a gate that is not composing handles an Enter keydown. With
    allowBasicEnter and without allowPlatformEnter the callback is invoked
    exactly once when no modifier is held, and not at all when Shift is
    held. With allowPlatformEnter and without allowBasicEnter: on a Mac-like
    platform (the user agent includes "Mac") the callback is invoked for
    Enter with Meta and not for Enter with Ctrl (Meta not held); elsewhere it
    is invoked for Enter with Ctrl and not for Enter with Meta (Ctrl not
    held). *)
Theorem gate_enter_modifiers ua (cb : Handler) w :
  key (w_event w) = "Enter" ->
  w_isComposing w = false ->
  let e := w_event w in
  let basic := onKeyDown (useCallbackOnEnter ua (mkGateProps cb true false)) in
  let platform := onKeyDown (useCallbackOnEnter ua (mkGateProps cb false true)) in
  let fires (m : M unit) :=
    m w = call_handler cb w
    /\ w_trace (snd (m w)) = w_trace w ++ [Invoked (h_name cb)] in
  let silent (m : M unit) := m w = (Normal tt, w) in
  (modifierless e = true -> fires basic)
  /\ (shiftKey e = true -> silent basic)
  /\ (includes ua "Mac" = true ->
      (metaKey e = true -> fires platform)
      /\ (ctrlKey e = true -> metaKey e = false -> silent platform))
  /\ (includes ua "Mac" = false ->
      (ctrlKey e = true -> fires platform)
      /\ (metaKey e = true -> ctrlKey e = false -> silent platform)).
Proof.
  intros Enter Idle. cbv beta zeta.
  rewrite !onKeyDown_decision. cbv zeta.
  cbn [allowBasicEnter allowPlatformEnter callback].
  rewrite Enter, Idle, String.eqb_refl. cbn [negb andb orb].
  unfold modifierless.
  destruct (metaKey (w_event w)), (ctrlKey (w_event w)),
    (shiftKey (w_event w)), (altKey (w_event w)), (includes ua "Mac");
    cbn [negb andb orb];
    repeat match goal with
           | |- _ /\ _ => split
           | |- _ -> _ => intro
           end;
    try discriminate; reflexivity.
Qed.

(** C5: with allowBasicEnter, the events compositionstart, Enter,
    compositionend, Enter (both Enter without modifiers) lead to exactly one
    invocation of the callback: none up to and including the first Enter,
    and one by the second Enter. *)
Theorem gate_enter_after_composition ua (cb : Handler) allowPlatform e1 e2 k1 k2 w0 :
  key k1 = "Enter" -> modifierless k1 = true ->
  key k2 = "Enter" -> modifierless k2 = true ->
  let g := useCallbackOnEnter ua (mkGateProps cb true allowPlatform) in
  let w2 := deliver g [CompositionStart e1; KeyDown k1] w0 in
  let w3 := deliver g [CompositionStart e1; KeyDown k1; CompositionEnd e2] w0 in
  let w4 :=
    deliver g [CompositionStart e1; KeyDown k1; CompositionEnd e2; KeyDown k2] w0 in
  w_trace w2 = w_trace w0
  /\ w_trace w3 = w_trace w0
  /\ w_trace w4 = w_trace w0 ++ [Invoked (h_name cb)]
  /\ w4 = snd (call_handler cb (with_event k2 w3)).
Proof.
  intros Enter1 Plain1 Enter2 Plain2. cbv zeta.
  destruct k1 as [key1 m1 c1 s1 a1 d1], k2 as [key2 m2 c2 s2 a2 d2].
  unfold modifierless in Plain1, Plain2. cbn in Enter1, Plain1, Enter2, Plain2.
  subst key1 key2.
  destruct m1, c1, s1, a1; try discriminate Plain1.
  destruct m2, c2, s2, a2; try discriminate Plain2.
  repeat split; reflexivity.
Qed.

(** C8: whatever event the gate handles, the gate itself does not throw,
    leaves the event object as it was delivered and never marks it
    default-prevented. A composition event only writes the Composition State
    flag. A keydown is one call of the configured callback with the
    delivered event exactly when it qualifies: the key is "Enter", no
    composition is open, and either the basic Enter is allowed and no
    modifier is held, or the platform Enter is allowed and the platform's
    modifier (Meta where the user agent includes "Mac", Ctrl elsewhere) is
    held. Then the trace grows by that one call and the handler ends as the
    callback ends; on every other keydown nothing changes at all. *)
Theorem gate_frame ua (props : @GateProps Ext) d w :
  let g := useCallbackOnEnter ua props in
  match d with
  | CompositionStart e =>
      dispatch g d w
      = (Normal tt, mkWorld e true (w_canTrigger w) (w_ext w) (w_trace w))
  | CompositionEnd e =>
      dispatch g d w
      = (Normal tt, mkWorld e false (w_canTrigger w) (w_ext w) (w_trace w))
  | KeyDown e =>
      let qualifying :=
        String.eqb (key e) "Enter"
        && negb (w_isComposing w)
        && ((allowBasicEnter props
             && negb (metaKey e) && negb (ctrlKey e)
             && negb (shiftKey e) && negb (altKey e))
            || (allowPlatformEnter props
                && (if includes ua "Mac" then metaKey e else ctrlKey e))) in
      dispatch g d w
      = (if qualifying
         then call_handler (callback props) (with_event e w)
         else (Normal tt, with_event e w))
      /\ w_trace (snd (dispatch g d w))
         = w_trace w
           ++ (if qualifying then [Invoked (h_name (callback props))] else [])
  end.
Proof.
  cbv zeta. destruct d as [e|e|e]; cbn [dispatch]; try reflexivity.
  rewrite onKeyDown_decision. cbv zeta. unfold modifierless.
  cbn [with_event w_event w_isComposing].
  rewrite !andb_assoc.
  match goal with |- context [if ?b then _ else _] => destruct b end;
    split; try reflexivity.
  cbn. now rewrite app_nil_r.
Qed.

(** ** onFormSubmit and handleSubmitForm *)

(** C9: the submit callbacks of Input ([onFormSubmit]) and TextArea
    ([handleSubmitForm]) ask for a submit only when a form is attached to
    the form context's ref. With [formRef] undefined or null, or its
    [current] undefined or null, the callback returns and nothing has
    changed (no preventDefault, no submit). With a form attached it calls
    preventDefault on the event and then requestSubmit on that form, once
    each, in this order. *)
Theorem form_submit_when_attached submit (formContext : FormContext) w :
  let contract (m : M unit) :=
    match formRef formContext with
    | JsValue r =>
        match current r with
        | JsValue form =>
            m w = requestSubmit submit form (snd (preventDefault w))
            /\ w_trace (snd (m w))
               = w_trace w ++ [PreventDefault; RequestSubmit form]
            /\ defaultPrevented (w_event (snd (m w))) = true
        | _ => m w = (Normal tt, w)
        end
    | _ => m w = (Normal tt, w)
    end in
  contract (onFormSubmit submit formContext)
  /\ contract (handleSubmitForm submit formContext).
Proof.
  cbv beta zeta. unfold onFormSubmit, handleSubmitForm, formRef_attached, read_current.
  destruct (formRef formContext) as [| |[cur]]; cbn; try (split; reflexivity).
  destruct cur as [| |form]; cbn; try (split; reflexivity).
  unfold bind, ret. cbn.
  rewrite <- app_assoc. cbn.
  split; (split; [reflexivity|split; reflexivity]).
Qed.

(** ** useCallbackOnceUntilReset *)

Lemma callbackOnceUntilReset_spent (cb : Thunk) w :
  w_canTrigger w = false ->
  callbackOnceUntilReset (useCallbackOnceUntilReset cb) w = (Normal tt, w).
Proof.
  intros Spent. cbn [callbackOnceUntilReset useCallbackOnceUntilReset].
  unfold bind, get_canTrigger. now rewrite Spent.
Qed.

Lemma callbackOnceUntilReset_armed (cb : Thunk) w :
  thunk_returns_normally cb ->
  w_canTrigger w = true ->
  callbackOnceUntilReset (useCallbackOnceUntilReset cb) w
  = (Normal tt,
     mkWorld (w_event w) (w_isComposing w) false (snd (t_body cb (w_ext w)))
             (w_trace w ++ [Invoked (t_name cb)])).
Proof.
  intros Ret Armed. cbn [callbackOnceUntilReset useCallbackOnceUntilReset].
  unfold bind, get_canTrigger, call_thunk. rewrite Armed, (Ret (w_ext w)).
  reflexivity.
Qed.

Lemma once_run_snoc (o : @OnceHandlers Ext) ops op w :
  once_run o (ops ++ [op]) w = snd (once_step o op (once_run o ops w)).
Proof.
  revert w. induction ops as [|op0 ops IH]; intros w; [reflexivity|].
  cbn [app once_run]. apply IH.
Qed.

Lemma called_since_reset_call ops : called_since_reset (ops ++ [CallOnce]).
Proof. exists ops, []. split; reflexivity. Qed.

Lemma called_since_reset_reset ops : ~ called_since_reset (ops ++ [Reset]).
Proof.
  intros (before & after & E & NoReset). symmetry in E.
  apply split_snoc in E as [(_ & _ & E)|(after' & -> & _)]; [discriminate E|].
  rewrite forallb_app in NoReset. cbn in NoReset.
  now rewrite andb_false_r in NoReset.
Qed.

(** The flag is down exactly when the callback was asked for since the last
    reset. *)
Lemma once_run_canTrigger (cb : Thunk) ops w0 :
  thunk_returns_normally cb ->
  w_canTrigger w0 = true ->
  w_canTrigger (once_run (useCallbackOnceUntilReset cb) ops w0) = false
  <-> called_since_reset ops.
Proof.
  intros Ret Init. induction ops as [|op ops IH] using rev_ind.
  - cbn [once_run]. rewrite Init. split; [discriminate|].
    intros (before & after & E & _). now destruct before.
  - rewrite once_run_snoc. destruct op; cbn [once_step].
    + split; [intros _; apply called_since_reset_call|intros _].
      destruct (w_canTrigger (once_run (useCallbackOnceUntilReset cb) ops w0)) eqn:C.
      * now rewrite callbackOnceUntilReset_armed.
      * now rewrite callbackOnceUntilReset_spent.
    + split; [discriminate|].
      intros Called. now apply called_since_reset_reset in Called.
Qed.

Lemma once_run_spent (cb : Thunk) seg w :
  forallb (fun op => negb (is_reset op)) seg = true ->
  w_canTrigger w = false ->
  once_run (useCallbackOnceUntilReset cb) seg w = w.
Proof.
  revert w. induction seg as [|op seg IH]; intros w NoReset Spent; [reflexivity|].
  cbn [forallb] in NoReset. apply andb_prop in NoReset as [Op NoReset].
  destruct op; [|discriminate Op].
  cbn [once_run once_step]. rewrite callbackOnceUntilReset_spent by exact Spent.
  now apply IH.
Qed.

(** What the helper keeps for a wrapped callback that returns (and, as
    every [Thunk], calls neither of the helper's functions itself): the two
    functions are called in any order, starting from the helper's creation.
    A call of [callbackOnceUntilReset] that is the first since creation or
    since the last reset invokes the wrapped callback exactly once; any
    further call before the next reset invokes it zero times and changes
    nothing. So over any stretch of calls without a reset the callback is
    invoked at most once. *)
Theorem once_until_reset (cb : Thunk) ops w0 :
  thunk_returns_normally cb ->
  w_canTrigger w0 = true ->
  let o := useCallbackOnceUntilReset cb in
  let w := once_run o ops w0 in
  (~ called_since_reset ops ->
     w_trace (snd (callbackOnceUntilReset o w))
     = w_trace w ++ [Invoked (t_name cb)])
  /\ (called_since_reset ops ->
     callbackOnceUntilReset o w = (Normal tt, w))
  /\ (forall seg,
     forallb (fun op => negb (is_reset op)) seg = true ->
     exists tr,
       w_trace (once_run o seg w) = w_trace w ++ tr
       /\ (tr = [] \/ tr = [Invoked (t_name cb)])).
Proof.
  intros Ret Init. cbv zeta.
  pose proof (once_run_canTrigger cb ops w0 Ret Init) as Inv.
  set (w := once_run (useCallbackOnceUntilReset cb) ops w0) in *.
  split; [|split].
  - intros Fresh.
    destruct (w_canTrigger w) eqn:C.
    + now rewrite callbackOnceUntilReset_armed.
    + exfalso. apply Fresh, Inv. reflexivity.
  - intros Called. apply callbackOnceUntilReset_spent. now apply Inv.
  - clear Inv. generalize w. clear w. intros w seg.
    revert w. induction seg as [|op seg IH]; intros w NoReset.
    + exists []. cbn. rewrite app_nil_r. auto.
    + cbn [forallb] in NoReset. apply andb_prop in NoReset as [Op NoReset].
      destruct op; [|discriminate Op]. cbn [once_run once_step].
      destruct (w_canTrigger w) eqn:C.
      * rewrite callbackOnceUntilReset_armed by assumption. cbn [snd].
        rewrite once_run_spent by (assumption || reflexivity).
        exists [Invoked (t_name cb)]. cbn. auto.
      * rewrite callbackOnceUntilReset_spent by assumption. cbn [snd].
        now apply IH.
Qed.

End Properties.

(** * The properties at work on the sample clients *)


Lemma gate_composition_invariant_witness :
  let g := useCallbackOnEnter mac_userAgent (mkGateProps (h_count 7) true true) in
  let w := deliver g [CompositionStart letter_a] (mount letter_a 0) in
  w_isComposing w = true
  /\ w_trace (snd (dispatch g (KeyDown (enter true false false false)) w)) = [].
Proof.
  cbv zeta.
  pose proof (gate_composition_invariant mac_userAgent
                (mkGateProps (h_count 7) true true)
                [CompositionStart letter_a] (mount letter_a 0) eq_refl)
    as [Flag Quiet].
  assert (composition_open [CompositionStart letter_a]) as Open
    by (exists [], letter_a, []; split; reflexivity).
  split.
  - apply Flag. exact Open.
  - exact (proj2 (Quiet Open (enter true false false false))).
Defined.

Lemma gate_ignores_other_keys_witness :
  onKeyDown (useCallbackOnEnter windows_userAgent (mkGateProps (h_count 7) true true))
            (mount letter_a 0)
  = (Normal tt, mount letter_a 0).
Proof.
  apply gate_ignores_other_keys. cbn. discriminate.
Defined.

Lemma gate_enter_modifiers_witness :
  let basic ua := onKeyDown (useCallbackOnEnter ua (mkGateProps (h_count 7) true false)) in
  let platform ua := onKeyDown (useCallbackOnEnter ua (mkGateProps (h_count 7) false true)) in
  let cmd_enter := mount (enter true false false false) 0 in
  let ctrl_enter := mount (enter false true false false) 0 in
  let shift_enter := mount (enter false false true false) 0 in
  w_trace (snd (basic mac_userAgent (mount plain_enter 0))) = [Invoked 7]
  /\ basic mac_userAgent shift_enter = (Normal tt, shift_enter)
  /\ w_trace (snd (platform mac_userAgent cmd_enter)) = [Invoked 7]
  /\ platform mac_userAgent ctrl_enter = (Normal tt, ctrl_enter)
  /\ w_trace (snd (platform windows_userAgent ctrl_enter)) = [Invoked 7]
  /\ platform windows_userAgent cmd_enter = (Normal tt, cmd_enter).
Proof.
  cbv zeta.
  pose proof (fun ua e =>
    gate_enter_modifiers ua (h_count 7) (mount e 0)) as T.
  cbv zeta in T.
  destruct (T mac_userAgent plain_enter eq_refl eq_refl) as (B & _).
  destruct (T mac_userAgent (enter false false true false) eq_refl eq_refl)
    as (_ & S & _).
  destruct (T mac_userAgent (enter true false false false) eq_refl eq_refl)
    as (_ & _ & MacCmd & _).
  destruct (T mac_userAgent (enter false true false false) eq_refl eq_refl)
    as (_ & _ & MacCtrl & _).
  destruct (T windows_userAgent (enter false true false false) eq_refl eq_refl)
    as (_ & _ & _ & WinCtrl).
  destruct (T windows_userAgent (enter true false false false) eq_refl eq_refl)
    as (_ & _ & _ & WinCmd).
  repeat apply conj.
  - exact (proj2 (B eq_refl)).
  - exact (S eq_refl).
  - exact (proj2 (proj1 (MacCmd eq_refl) eq_refl)).
  - exact (proj2 (MacCtrl eq_refl) eq_refl eq_refl).
  - exact (proj2 (proj1 (WinCtrl eq_refl) eq_refl)).
  - exact (proj2 (WinCmd eq_refl) eq_refl eq_refl).
Defined.

Lemma gate_enter_after_composition_witness :
  let g := useCallbackOnEnter mac_userAgent (mkGateProps (h_count 7) true false) in
  let w0 := mount letter_a 0 in
  w_trace (deliver g [CompositionStart letter_a; KeyDown plain_enter] w0) = []
  /\ w_trace (deliver g [CompositionStart letter_a; KeyDown plain_enter;
                         CompositionEnd letter_a; KeyDown plain_enter] w0)
     = [Invoked 7].
Proof.
  cbv zeta.
  destruct (gate_enter_after_composition mac_userAgent (h_count 7) false
              letter_a letter_a plain_enter plain_enter (mount letter_a 0)
              eq_refl eq_refl eq_refl eq_refl) as (First & _ & Second & _).
  split; [exact First|exact Second].
Defined.

Lemma chain_two_handlers_witness :
  let chain stop :=
    useChainEventHandlers
      (mkChainProps [JsValue (h_prevent 1); JsValue (h_count 2)] stop) in
  let w := mount plain_enter 0 in
  w_trace (snd (chain (Some true) w)) = [Invoked 1]
  /\ w_trace (snd (chain (Some false) w)) = [Invoked 1; Invoked 2]
  /\ w_trace (snd (chain None w)) = [Invoked 1; Invoked 2].
Proof.
  cbv zeta.
  pose proof (fun stop =>
    chain_two_handlers (h_prevent 1) (h_count 2) stop (mount plain_enter 0) eq_refl)
    as T.
  cbv zeta in T.
  split; [|split].
  - exact (proj2 (proj1 (T (Some true)) eq_refl eq_refl)).
  - exact (proj2 (proj2 (T (Some false)) eq_refl eq_refl)).
  - exact (proj2 (proj2 (T None) eq_refl eq_refl)).
Defined.

Lemma h_count_returns_normally name : returns_normally (h_count name).
Proof. intros e x. reflexivity. Defined.

Lemma h_count_never_prevents name : never_prevents (h_count name).
Proof. intros e x Clear. exact Clear. Defined.

Lemma chain_skips_absent_witness :
  let hs := [JsUndefined; JsValue (h_count 2); JsNull; JsValue (h_count 3)] in
  let run stop hs' := useChainEventHandlers (mkChainProps hs' stop) (mount plain_enter 0) in
  fst (run (Some true) hs) = Normal tt
  /\ w_trace (snd (run (Some true) hs)) = [Invoked 2; Invoked 3]
  /\ w_trace (snd (run None [JsUndefined; JsValue (h_count 2)])) = [Invoked 2].
Proof.
  cbv zeta.
  pose proof (fun stop =>
    chain_skips_absent
      [JsUndefined; JsValue (h_count 2); JsNull; JsValue (h_count 3)]
      stop (mount plain_enter 0)) as T.
  cbv zeta in T.
  assert (Forall returns_normally [h_count 2; h_count 3]) as Ret
    by (repeat constructor; apply h_count_returns_normally).
  assert (Forall never_prevents [h_count 2; h_count 3]) as Keep
    by (repeat constructor; apply h_count_never_prevents).
  destruct (T (Some true)) as (_ & NoThrow & All & _).
  destruct (T None) as (_ & _ & _ & Second).
  split; [|split].
  - exact (NoThrow Ret).
  - exact (All Ret (or_intror (conj eq_refl Keep))).
  - exact (f_equal (fun r => w_trace (snd r))
             (Second JsUndefined (h_count 2) eq_refl)).
Defined.

Lemma t_count_returns_normally name : thunk_returns_normally (t_count name).
Proof. intros x. reflexivity. Defined.

Lemma once_until_reset_witness :
  let o := useCallbackOnceUntilReset (t_count 5) in
  let w0 := mount letter_a 0 in
  w_trace (once_run o [CallOnce] w0) = [Invoked 5]
  /\ w_trace (once_run o [CallOnce; CallOnce; CallOnce] w0) = [Invoked 5]
  /\ w_trace (once_run o [CallOnce; CallOnce; Reset; CallOnce] w0)
     = [Invoked 5; Invoked 5].
Proof.
  cbv zeta.
  pose proof (fun ops =>
    once_until_reset (t_count 5) ops (mount letter_a 0)
      (t_count_returns_normally 5) eq_refl) as T.
  cbv zeta in T.
  assert (~ called_since_reset []) as Fresh0
    by (intros (before & after & E & _); now destruct before).
  assert (called_since_reset [CallOnce; CallOnce]) as Spent2
    by (exists [CallOnce], []; split; reflexivity).
  assert (~ called_since_reset [CallOnce; CallOnce; Reset]) as Fresh3
    by (apply (called_since_reset_reset [CallOnce; CallOnce])).
  split; [|split].
  - exact (proj1 (T []) Fresh0).
  - exact (f_equal (fun r => w_trace (snd r)) (proj1 (proj2 (T [CallOnce; CallOnce])) Spent2)).
  - exact (proj1 (T [CallOnce; CallOnce; Reset]) Fresh3).
Defined.

(** C10, on the code: the claim (and the helper's own documentation, "No
    effect for further calls") does not hold when the wrapped callback
    throws. [callbackOnceUntilReset] clears its flag only after [callback()]
    has returned, so a first call whose callback throws leaves the flag up,
    and a second call, with no reset in between, invokes the callback again
    (this time it returns): two invocations between consecutive resets. *)
Lemma once_callback_invoked_again_after_throw :
  let o := useCallbackOnceUntilReset (t_fail_first 5) in
  let w0 := mount letter_a 0 in
  let first := callbackOnceUntilReset o w0 in
  let second := callbackOnceUntilReset o (snd first) in
  fst first = Thrown "Error: boom"
  /\ w_trace (snd first) = [Invoked 5]
  /\ w_canTrigger (snd first) = true
  /\ fst second = Normal tt
  /\ w_trace (snd second) = [Invoked 5; Invoked 5]
  /\ snd second = once_run o [CallOnce; CallOnce] w0.
Proof. cbv zeta. repeat split; reflexivity. Qed.

(** The order of the two statements in [callbackOnceUntilReset] shows when
    the wrapped callback throws: the flag is still up, and the next call
    invokes the callback again. *)
Remark once_throwing_callback_stays_armed :
  let o := useCallbackOnceUntilReset (t_throw 5) in
  let w1 := once_run o [CallOnce] (mount letter_a 0) in
  w_canTrigger w1 = true
  /\ w_trace (once_run o [CallOnce; CallOnce] (mount letter_a 0))
     = [Invoked 5; Invoked 5].
Proof. cbv zeta. split; reflexivity. Qed.

(** A handler that throws ends the chain there: the exception leaves the
    chained function and the handlers after it are not invoked. *)
Remark chain_propagates_exceptions :
  useChainEventHandlers
    (mkChainProps [JsValue (h_throw 1); JsValue (h_count 2)] None)
    (mount plain_enter 0)
  = (Thrown "Error: boom",
     mkWorld plain_enter false true 0 [Invoked 1]).
Proof. reflexivity. Qed.

(** [onFormSubmit] with form 3 attached, and with a ref that holds no form. *)
Example form_submit_samples :
  let w := mount plain_enter 0 in
  let attached := mkFormContext (JsValue (mkRefObject (JsValue 3))) in
  let detached := mkFormContext (JsValue (mkRefObject JsNull)) in
  onFormSubmit submit_ok attached w
  = (Normal tt,
     mkWorld (prevented plain_enter) false true 0 [PreventDefault; RequestSubmit 3])
  /\ onFormSubmit submit_ok detached w = (Normal tt, w)
  /\ handleSubmitForm submit_ok (mkFormContext JsUndefined) w = (Normal tt, w).
Proof. cbv zeta. repeat split; reflexivity. Qed.

(** * More properties of the hooks *)

Section ChainProperties.

Context {Ext : Type}.

Local Abbreviation World := (@World Ext).
Local Abbreviation Handler := (@Handler Ext).

Implicit Types (w : World) (h : Handler) (hs pre post : list (Nullable Handler))
  (stop : option bool).

Lemma chain_loop_app stop hs1 hs2 w :
  chain_loop stop (hs1 ++ hs2) w
  = bind (chain_loop stop hs1) (fun _ => chain_loop stop hs2) w.
Proof.
  revert w. induction hs1 as [|v hs1 IH]; intros w; [reflexivity|].
  cbn [app]. unfold bind in *. rewrite !chain_loop_cons.
  destruct (short_circuits stop w) eqn:G.
  - symmetry. now apply chain_loop_short_circuit.
  - destruct v as [| |h]; try apply IH.
    destruct (call_handler h w) as [[u|exn] w']; [apply IH|reflexivity].
Qed.

(** X1: chains compose. The handler made from the array [hs1 ++ hs2] does
    what the handler made from [hs1] followed by the handler made from [hs2]
    does (same [stopOnDefaultPrevented]): an exception of the first part
    skips the second, and a first part stopped by the default-prevented
    check leaves a second part that stops at once. *)
Theorem chain_concat hs1 hs2 stop w :
  useChainEventHandlers (mkChainProps (hs1 ++ hs2) stop) w
  = bind (useChainEventHandlers (mkChainProps hs1 stop))
         (fun _ => useChainEventHandlers (mkChainProps hs2 stop)) w.
Proof. apply chain_loop_app. Qed.

(** X2: a handler that throws ends the chain. If the handlers before [h]
    returned, the default-prevented check lets [h] run and [h] throws, then
    the chained function throws the same exception from the world [h] left:
    no handler after [h] is invoked. *)
Theorem chain_handler_throws pre h post stop exn w :
  let r1 := useChainEventHandlers (mkChainProps pre stop) w in
  fst r1 = Normal tt ->
  truthy stop && defaultPrevented (w_event (snd r1)) = false ->
  eff_completion (h_body h (w_event (snd r1)) (w_ext (snd r1))) = Thrown exn ->
  useChainEventHandlers (mkChainProps (pre ++ JsValue h :: post) stop) w
  = (Thrown exn, snd (call_handler h (snd r1))).
Proof.
  cbv zeta. unfold useChainEventHandlers. cbn [stopOnDefaultPrevented handlers].
  intros Ret Go Throw. rewrite chain_loop_app. unfold bind.
  destruct (chain_loop stop pre w) as [c1 w1]. cbn [fst snd] in *. subst c1.
  rewrite chain_loop_cons. unfold short_circuits. rewrite Go.
  unfold call_handler. rewrite Throw. reflexivity.
Qed.

(** X3: an exception that leaves the chained function is an exception of
    one of its handlers: some present handler of the array was called, threw
    it, and the chain ended in the world that handler left. *)
Theorem chain_exception_origin hs stop exn w :
  fst (useChainEventHandlers (mkChainProps hs stop) w) = Thrown exn ->
  exists h w1,
    In h (present hs)
    /\ call_handler h w1
       = (Thrown exn, snd (useChainEventHandlers (mkChainProps hs stop) w)).
Proof.
  unfold useChainEventHandlers. cbn [stopOnDefaultPrevented handlers].
  revert w. induction hs as [|v hs IH]; intros w; [discriminate|].
  rewrite chain_loop_cons. destruct (short_circuits stop w); [discriminate|].
  destruct v as [| |h]; cbn [present]; try apply IH.
  destruct (call_handler h w) as [[u|e] w'] eqn:Call.
  - intros T. destruct (IH w' T) as (h' & w1 & Hin & Hcall).
    exists h', w1. split; [now right|exact Hcall].
  - cbn [fst snd]. intros [= ->]. exists h, w. split; [now left|exact Call].
Qed.

(** X4: the chain calls the present handlers of its array in array order,
    each at most once, and nothing else: what it adds to the trace is the
    calls of an initial segment of the present handlers. *)
Theorem chain_invokes_initial_segment hs stop w :
  exists k,
    w_trace (snd (useChainEventHandlers (mkChainProps hs stop) w))
    = w_trace w ++ invocations (firstn k (present hs)).
Proof.
  unfold useChainEventHandlers, invocations.
  cbn [stopOnDefaultPrevented handlers].
  revert w. induction hs as [|v hs IH]; intros w.
  - exists 0. cbn. now rewrite app_nil_r.
  - rewrite chain_loop_cons. destruct (short_circuits stop w).
    + exists 0. cbn. now rewrite app_nil_r.
    + destruct v as [| |h]; cbn [present]; try apply IH.
      unfold call_handler.
      destruct (eff_completion (h_body h (w_event w) (w_ext w))) as [u|exn].
      * match goal with |- context [chain_loop stop hs ?w1] =>
          destruct (IH w1) as [k Hk] end.
        exists (S k). rewrite Hk. cbn. now rewrite <- app_assoc.
      * exists 1. reflexivity.
Qed.

(** X5: with [stopOnDefaultPrevented] true, whatever the length of the
    array: if the first part of the array leaves the event
    default-prevented, the rest of the array is never called, and the
    chain is the chain of the first part. *)
Theorem chain_stops_once_prevented pre post stop w :
  truthy stop = true ->
  defaultPrevented
    (w_event (snd (useChainEventHandlers (mkChainProps pre stop) w))) = true ->
  useChainEventHandlers (mkChainProps (pre ++ post) stop) w
  = useChainEventHandlers (mkChainProps pre stop) w.
Proof.
  unfold useChainEventHandlers. cbn [stopOnDefaultPrevented handlers].
  intros Stop Prevented. rewrite chain_loop_app. unfold bind.
  destruct (chain_loop stop pre w) as [[[]|exn] w1]; [|reflexivity].
  apply chain_loop_short_circuit. unfold short_circuits.
  cbn [snd] in Prevented. now rewrite Stop, Prevented.
Qed.

End ChainProperties.

Section GateProperties.

Context {Ext : Type}.

Local Abbreviation World := (@World Ext).
Local Abbreviation Handler := (@Handler Ext).

Implicit Types (w : World) (cb : Handler).

Lemma trace_not_grown (tr : list Obs) (o : Obs) : tr <> tr ++ [o].
Proof.
  intros E. rewrite <- (app_nil_r tr) in E at 1.
  apply app_inv_head in E. discriminate E.
Qed.

(** X6: a gate with neither [allowBasicEnter] nor [allowPlatformEnter]
    never invokes its callback: whatever events it is given, the trace and
    the outside state stay as they were. *)
Theorem gate_disabled_is_inert ua cb ds w0 :
  let w := deliver (useCallbackOnEnter ua (mkGateProps cb false false)) ds w0 in
  w_trace w = w_trace w0 /\ w_ext w = w_ext w0.
Proof.
  cbv zeta. revert w0. induction ds as [|d ds IH]; intros w0; [split; reflexivity|].
  cbn [deliver].
  match goal with |- context [deliver ?g ds ?w1] =>
    destruct (IH w1) as [-> ->] end.
  destruct d as [e|e|e]; cbn [dispatch]; try (split; reflexivity).
  rewrite onKeyDown_decision. cbv zeta.
  cbn [allowBasicEnter allowPlatformEnter andb orb].
  rewrite andb_false_r. split; reflexivity.
Qed.

(** X7: allowing more never loses a trigger. If a keydown makes a gate
    invoke its callback, it makes every gate invoke it that has the same
    callback and platform and allows at least as much. *)
Theorem gate_flags_monotone ua cb (basic platform basic' platform' : bool) w :
  implb basic basic' = true ->
  implb platform platform' = true ->
  fires cb (onKeyDown (useCallbackOnEnter ua (mkGateProps cb basic platform))) w ->
  fires cb (onKeyDown (useCallbackOnEnter ua (mkGateProps cb basic' platform'))) w.
Proof.
  unfold fires. rewrite !onKeyDown_decision. cbv zeta.
  cbn [allowBasicEnter allowPlatformEnter callback].
  intros B P.
  destruct (String.eqb (key (w_event w)) "Enter"), (w_isComposing w),
    basic, basic', platform, platform', (modifierless (w_event w)),
    (if includes ua "Mac" then metaKey (w_event w) else ctrlKey (w_event w));
    cbn in *; try discriminate; intros F; try exact F;
    exfalso; exact (trace_not_grown _ _ F).
Qed.

(** X8: the two kinds of Enter exclude each other. A keydown that
    triggers a gate allowing only the basic Enter leaves a gate allowing only
    the platform Enter silent (same platform, same state): no Enter is both
    basic and platform. *)
Theorem gate_basic_excludes_platform ua cb w :
  fires cb (onKeyDown (useCallbackOnEnter ua (mkGateProps cb true false))) w ->
  onKeyDown (useCallbackOnEnter ua (mkGateProps cb false true)) w = (Normal tt, w).
Proof.
  unfold fires. rewrite !onKeyDown_decision. cbv zeta.
  cbn [allowBasicEnter allowPlatformEnter callback]. unfold modifierless.
  destruct (String.eqb (key (w_event w)) "Enter"), (w_isComposing w),
    (metaKey (w_event w)), (ctrlKey (w_event w)), (shiftKey (w_event w)),
    (altKey (w_event w)), (includes ua "Mac");
    cbn; intros F; try reflexivity;
    exfalso; exact (trace_not_grown _ _ F).
Qed.

End GateProperties.

Section OnceProperties.

Context {Ext : Type}.

Local Abbreviation World := (@World Ext).
Local Abbreviation Thunk := (@Thunk Ext).

Implicit Types (w : World) (cb : Thunk).

(** X9: a wrapped callback that throws is never disarmed. The flag is
    cleared only after the callback has returned, so if the callback throws
    every time, every call of [callbackOnceUntilReset] invokes it again,
    reset or no reset. *)
Theorem once_throwing_never_disarmed cb ops w0 :
  thunk_always_throws cb ->
  w_canTrigger w0 = true ->
  let w := once_run (useCallbackOnceUntilReset cb) ops w0 in
  w_canTrigger w = true
  /\ w_trace w
     = w_trace w0
       ++ repeat (Invoked (t_name cb))
            (List.length (filter (fun op => negb (is_reset op)) ops)).
Proof.
  intros Throws. cbv zeta. revert w0.
  induction ops as [|op ops IH]; intros w0 Armed.
  - split; [exact Armed|]. cbn. now rewrite app_nil_r.
  - cbn [once_run]. destruct op; cbn [once_step filter is_reset negb List.length].
    + cbn [callbackOnceUntilReset useCallbackOnceUntilReset].
      unfold bind, get_canTrigger, call_thunk. rewrite Armed.
      destruct (Throws (w_ext w0)) as [exn ->]. cbn [snd].
      match goal with |- context [once_run _ ops ?w1] =>
        destruct (IH w1 Armed) as [-> ->] end.
      split; [reflexivity|]. cbn. now rewrite <- app_assoc.
    + cbn [reset useCallbackOnceUntilReset]. unfold set_canTrigger. cbn [snd].
      match goal with |- context [once_run _ ops ?w1] =>
        destruct (IH w1 eq_refl) as [-> ->] end.
      split; reflexivity.
Qed.

Lemma once_run_bounded cb ops w0 :
  thunk_returns_normally cb ->
  exists k,
    w_trace (once_run (useCallbackOnceUntilReset cb) ops w0)
    = w_trace w0 ++ repeat (Invoked (t_name cb)) k
    /\ k <= (if w_canTrigger w0 then 1 else 0) + List.length (filter is_reset ops).
Proof.
  intros Ret. revert w0. induction ops as [|op ops IH]; intros w0.
  - exists 0. cbn. rewrite app_nil_r. split; [reflexivity|lia].
  - cbn [once_run]. destruct op; cbn [once_step filter is_reset List.length].
    + destruct (w_canTrigger w0) eqn:C.
      * rewrite callbackOnceUntilReset_armed by assumption. cbn [snd].
        match goal with |- context [once_run _ ops ?w1] =>
          destruct (IH w1) as (k & -> & Hk) end.
        cbn in Hk. exists (S k). cbn. rewrite <- app_assoc. split; [reflexivity|lia].
      * rewrite callbackOnceUntilReset_spent by assumption. cbn [snd].
        destruct (IH w0) as (k & -> & Hk). rewrite C in Hk.
        exists k. split; [reflexivity|lia].
    + cbn [reset useCallbackOnceUntilReset]. unfold set_canTrigger. cbn [snd].
      match goal with |- context [once_run _ ops ?w1] =>
        destruct (IH w1) as (k & -> & Hk) end.
      cbn in Hk. exists k. split; [reflexivity|].
      destruct (w_canTrigger w0); lia.
Qed.

(** X10: with a wrapped callback that returns and does not itself call
    [callbackOnceUntilReset] or [reset] (a [Thunk]: a function of the outside
    state alone), whatever the calls of the two functions and whatever the
    state they start from, the callback is invoked at most once more than
    [reset] was called; the helper adds nothing else to the trace. *)
Theorem once_invocations_bounded cb ops w0 :
  thunk_returns_normally cb ->
  exists k,
    w_trace (once_run (useCallbackOnceUntilReset cb) ops w0)
    = w_trace w0 ++ repeat (Invoked (t_name cb)) k
    /\ k <= 1 + List.length (filter is_reset ops).
Proof.
  intros Ret. destruct (once_run_bounded cb ops w0 Ret) as (k & E & Hk).
  exists k. split; [exact E|]. destruct (w_canTrigger w0); lia.
Qed.

End OnceProperties.

(** * Properties of the components *)

Section ComponentProperties.

Context {Ext : Type}.

Variable ua : string.
Variable submit : nat -> Ext -> completion unit * Ext.

Local Abbreviation World := (@World Ext).
Local Abbreviation Handler := (@Handler Ext).

Implicit Types (w : World) (ctx : FormContext) (u : Nullable Handler).

(** ** The hooks over functions of the bundle *)

(** The hooks as the claims model them are the general ones at a client
    function. *)
Lemma useCallbackOnEnter_client (props : @GateProps Ext) :
  useCallbackOnEnter ua props
  = useCallbackOnEnter_any ua (Client (callback props))
      (allowBasicEnter props) (allowPlatformEnter props).
Proof. reflexivity. Qed.

Lemma chain_loop_client stop (hs : list (Nullable Handler)) w :
  chain_loop stop hs w = chain_loop_any stop (map client_entry hs) w.
Proof.
  revert w. induction hs as [|v hs IH]; intros w; [reflexivity|].
  cbn [map chain_loop chain_loop_any]. unfold bind, get_event.
  destruct (truthy stop && defaultPrevented (w_event w)); [reflexivity|].
  destruct v as [| |h];
    cbn [client_entry strict_eq_null strict_eq_undefined js_call js_call_any call_fn];
    try apply IH.
  destruct (call_handler h w) as [[u|exn] w']; [apply IH|reflexivity].
Qed.

Lemma onKeyDown_any_decision (cb : @Fn Ext) (basic platform : bool) w :
  onKeyDown (useCallbackOnEnter_any ua cb basic platform) w
  = if accepted_enter ua basic platform (w_event w) && negb (w_isComposing w)
    then call_fn cb w
    else (Normal tt, w).
Proof.
  unfold useCallbackOnEnter_any, accepted_enter, modifierless. cbn [onKeyDown].
  unfold bind, get_event, get_isComposing, ret. cbv zeta.
  destruct (String.eqb (key (w_event w)) "Enter"); cbn [negb andb]; [|reflexivity].
  destruct (w_isComposing w), basic, platform,
    (metaKey (w_event w)), (ctrlKey (w_event w)),
    (shiftKey (w_event w)), (altKey (w_event w)), (includes ua "Mac");
    reflexivity.
Qed.

(** A chain of a function of the bundle and an optional handler of the
    client. *)
Lemma chain_any_pair stop (m : @M Ext unit) u w :
  useChainEventHandlers_any [JsValue (Bundle m); client_entry u] stop w
  = if short_circuits stop w then (Normal tt, w)
    else match m w with
         | (Normal _, w1) =>
             if short_circuits stop w1 then (Normal tt, w1)
             else call_if_present u w1
         | (Thrown exn, w1) => (Thrown exn, w1)
         end.
Proof.
  unfold useChainEventHandlers_any, short_circuits. cbn [chain_loop_any].
  unfold bind, get_event, ret, call_if_present. cbn [strict_eq_null strict_eq_undefined].
  destruct (truthy stop && defaultPrevented (w_event w)); [reflexivity|].
  cbn [js_call_any call_fn].
  destruct (m w) as [[[]|exn] w1]; [|reflexivity].
  destruct (truthy stop && defaultPrevented (w_event w1)); [reflexivity|].
  destruct u as [| |h];
    cbn [client_entry strict_eq_null strict_eq_undefined js_call js_call_any
         call_fn chain_loop_any];
    try reflexivity.
  unfold call_handler.
  destruct (eff_completion (h_body h (w_event w1) (w_ext w1))) as [[]|exn];
    reflexivity.
Qed.

Lemma submit_callbacks ctx w :
  onFormSubmit submit ctx w
  = match attached_form ctx with
    | Some form => requestSubmit submit form (snd (preventDefault w))
    | None => (Normal tt, w)
    end
  /\ handleSubmitForm submit ctx w = onFormSubmit submit ctx w.
Proof.
  split; [|reflexivity].
  unfold onFormSubmit, formRef_attached, read_current, attached_form.
  destruct (formRef ctx) as [| |[cur]]; cbn; try reflexivity.
  destruct cur as [| |form]; reflexivity.
Qed.

Lemma call_if_present_trace u w :
  w_trace (snd (call_if_present u w)) = w_trace w ++ optional_invocation u.
Proof.
  destruct u as [| |h]; cbn; try now rewrite app_nil_r.
  reflexivity.
Qed.

(** ** What touches the cells of the hooks *)

Lemma keeps_cells_bind {A B} (m : @M Ext A) (k : A -> @M Ext B) :
  keeps_cells m -> (forall a, keeps_cells (k a)) -> keeps_cells (bind m k).
Proof.
  intros Hm Hk w. unfold bind. specialize (Hm w).
  destruct (m w) as [[a|exn] w1]; cbn [snd] in *; [|exact Hm].
  destruct (Hk a w1) as [-> ->]. exact Hm.
Qed.

Lemma keeps_cells_ret {A} (a : A) : keeps_cells (@ret Ext A a).
Proof. intros w. split; reflexivity. Qed.

Lemma keeps_cells_call_handler (h : Handler) : keeps_cells (call_handler h).
Proof. intros w. split; reflexivity. Qed.

Lemma keeps_cells_call_if_present u : keeps_cells (call_if_present u).
Proof. intros w. destruct u; split; reflexivity. Qed.

Lemma keeps_cells_call_thunk_if_present (v : Nullable (@Thunk Ext)) :
  keeps_cells (call_thunk_if_present v).
Proof. intros w. destruct v; split; reflexivity. Qed.

Lemma keeps_cells_call_change_if_present (v : Nullable (@ChangeHandler Ext)) e :
  keeps_cells (call_change_if_present v e).
Proof. intros w. destruct v; split; reflexivity. Qed.

Lemma keeps_cells_onFormSubmit ctx : keeps_cells (onFormSubmit submit ctx).
Proof.
  intros w. rewrite (proj1 (submit_callbacks ctx w)).
  destruct (attached_form ctx); split; reflexivity.
Qed.

Lemma keeps_cells_onKeyDown (cb : @Fn Ext) (basic platform : bool) :
  keeps_cells (call_fn cb) ->
  keeps_cells (onKeyDown (useCallbackOnEnter_any ua cb basic platform)).
Proof.
  intros Hcb w. rewrite onKeyDown_any_decision.
  destruct (accepted_enter ua basic platform (w_event w) && negb (w_isComposing w));
    [apply Hcb|split; reflexivity].
Qed.

Lemma keeps_cells_chain_pair stop (m : @M Ext unit) u :
  keeps_cells m ->
  keeps_cells (useChainEventHandlers_any [JsValue (Bundle m); client_entry u] stop).
Proof.
  intros Hm w. rewrite chain_any_pair.
  destruct (short_circuits stop w); [split; reflexivity|].
  specialize (Hm w). destruct (m w) as [[[]|exn] w1]; cbn [snd] in *; [|exact Hm].
  destruct (short_circuits stop w1); [exact Hm|].
  destruct (keeps_cells_call_if_present u w1) as [-> ->]. exact Hm.
Qed.

(** A composition chain writes the flag before it calls the client. *)
Lemma composition_chain_cells (b : bool) u w :
  let w' := snd (useChainEventHandlers_any
                   [JsValue (Bundle (set_isComposing b)); client_entry u] None w) in
  w_isComposing w' = b /\ w_canTrigger w' = w_canTrigger w.
Proof.
  cbv zeta. rewrite chain_any_pair. unfold short_circuits. cbn [truthy andb].
  unfold set_isComposing.
  match goal with |- context [call_if_present u ?w1] =>
    destruct (keeps_cells_call_if_present u w1) as [-> ->] end.
  split; reflexivity.
Qed.

(** The flag of a field that reacts to composition events as the gate does
    follows the compositions, whatever else the field is told. *)
Lemma field_flag_follows_compositions {S R : Type} (flag : S -> bool)
    (step : R -> FieldEvent -> S -> S) (evs : list (R * FieldEvent)) (s0 : S) :
  (forall r ev s,
     flag (step r ev s)
     = match ev with
       | Key (CompositionStart _) => true
       | Key (CompositionEnd _) => false
       | _ => flag s
       end) ->
  flag s0 = false ->
  flag (fold_left (fun s re => step (fst re) (snd re) s) evs s0) = true
  <-> composition_open (key_events (map snd evs)).
Proof.
  intros Step Init. induction evs as [|[r ev] evs IH] using rev_ind.
  - cbn. rewrite Init. split; [discriminate|].
    intros (before & e & after & E & _). now destruct before.
  - rewrite fold_left_app, map_app. unfold key_events in *.
    rewrite flat_map_app. cbn [fold_left map flat_map fst snd].
    rewrite Step. destruct ev as [e|e|[e|e|e]]; rewrite ?app_nil_r; try exact IH.
    + split; [intros _; apply composition_open_start|reflexivity].
    + split; [discriminate|]. intros O. now apply composition_open_end in O.
    + rewrite composition_open_keydown. exact IH.
Qed.

Lemma bind_keeps {A B P : Type} (proj : World -> P) (m : @M Ext A) (k : A -> @M Ext B) :
  (forall w, proj (snd (m w)) = proj w) ->
  (forall a w, proj (snd (k a w)) = proj w) ->
  forall w, proj (snd (bind m k w)) = proj w.
Proof.
  intros Hm Hk w. unfold bind. specialize (Hm w).
  destruct (m w) as [[a|exn] w1]; cbn [snd] in *; [|exact Hm].
  now rewrite Hk.
Qed.

Lemma once_call_isComposing (cb : @Thunk Ext) w :
  w_isComposing (snd (callbackOnceUntilReset (useCallbackOnceUntilReset cb) w))
  = w_isComposing w.
Proof.
  cbn [callbackOnceUntilReset useCallbackOnceUntilReset].
  unfold bind, get_canTrigger, call_thunk.
  destruct (w_canTrigger w); [|reflexivity].
  destruct (fst (t_body cb (w_ext w))); reflexivity.
Qed.

Lemma once_call_canTrigger (cb : @Thunk Ext) w :
  thunk_returns_normally cb ->
  w_canTrigger (snd (callbackOnceUntilReset (useCallbackOnceUntilReset cb) w))
  = false.
Proof.
  intros Ret. destruct (w_canTrigger w) eqn:C.
  - now rewrite callbackOnceUntilReset_armed.
  - now rewrite callbackOnceUntilReset_spent.
Qed.

Lemma once_call_trace (cb : @Thunk Ext) w :
  thunk_returns_normally cb ->
  callbackOnceUntilReset (useCallbackOnceUntilReset cb) w
  = (Normal tt, snd (callbackOnceUntilReset (useCallbackOnceUntilReset cb) w))
  /\ w_trace (snd (callbackOnceUntilReset (useCallbackOnceUntilReset cb) w))
     = w_trace w ++ (if w_canTrigger w then [Invoked (t_name cb)] else []).
Proof.
  intros Ret. destruct (w_canTrigger w) eqn:C.
  - rewrite callbackOnceUntilReset_armed by assumption. split; reflexivity.
  - rewrite callbackOnceUntilReset_spent by assumption.
    split; [reflexivity|]. cbn. now rewrite app_nil_r.
Qed.

Lemma changed_since_focus_change evs e : changed_since_focus (evs ++ [Change e]).
Proof. exists evs, e, []. split; reflexivity. Qed.

Lemma changed_since_focus_focus evs e : ~ changed_since_focus (evs ++ [Focus e]).
Proof.
  intros (before & e0 & after & E & NoFocus). symmetry in E.
  apply split_snoc in E as [(_ & _ & E)|(after' & -> & _)]; [discriminate E|].
  rewrite forallb_app in NoFocus. cbn in NoFocus.
  now rewrite andb_false_r in NoFocus.
Qed.

Lemma changed_since_focus_key evs d :
  changed_since_focus (evs ++ [Key d]) <-> changed_since_focus evs.
Proof.
  split.
  - intros (before & e0 & after & E & NoFocus). symmetry in E.
    apply split_snoc in E as [(_ & _ & E)|(after' & -> & ->)]; [discriminate E|].
    exists before, e0, after'. split; [reflexivity|].
    rewrite forallb_app in NoFocus. now apply andb_prop in NoFocus.
  - intros (before & e0 & after & -> & NoFocus).
    exists before, e0, (after ++ [Key d]). split.
    + now rewrite <- app_assoc.
    + rewrite forallb_app, NoFocus. reflexivity.
Qed.

(** The once-flag of a field that disarms on a change and rearms on a focus
    tells whether the value changed since the last focus. *)
Lemma field_flag_follows_focus {S R : Type} (armed : S -> bool)
    (step : R -> FieldEvent -> S -> S) (evs : list (R * FieldEvent)) (s0 : S) :
  (forall r ev s, In (r, ev) evs ->
     armed (step r ev s)
     = match ev with
       | Focus _ => true
       | Change _ => false
       | Key _ => armed s
       end) ->
  armed s0 = true ->
  armed (fold_left (fun s re => step (fst re) (snd re) s) evs s0) = false
  <-> changed_since_focus (map snd evs).
Proof.
  intros Step Init. induction evs as [|[r ev] evs IH] using rev_ind.
  - cbn. rewrite Init. split; [discriminate|].
    intros (before & e & after & E & _). now destruct before.
  - rewrite fold_left_app, map_app. cbn [fold_left map fst snd].
    rewrite Step by (apply in_or_app; right; now left).
    assert (forall r' ev' s, In (r', ev') evs ->
              armed (step r' ev' s)
              = match ev' with
                | Focus _ => true
                | Change _ => false
                | Key _ => armed s
                end) as Step'
      by (intros; apply Step, in_or_app; now left).
    specialize (IH Step').
    destruct ev as [e|e|d].
    + split; [discriminate|]. intros C. now apply changed_since_focus_focus in C.
    + split; [intros _; apply changed_since_focus_change|reflexivity].
    + rewrite changed_since_focus_key. exact IH.
Qed.

(** ** TextArea: keydown *)

(** X11: a keydown in a TextArea. An event that arrives default-prevented
    is ignored: no submit, and the client's [onKeyDown] is not called.
    Otherwise, if no composition is open, the key is an accepted Enter (with
    the platform's modifier, or plain when [allowFormSubmitOnEnter]) and a
    form is attached, the event is default-prevented, the form is asked to
    submit, and the client's [onKeyDown] is not called. In every other case
    the client's [onKeyDown], if there is one, is called and nothing else
    happens. *)
Theorem TextArea_keydown (r : @TextArea.Render Ext) w :
  w_trace (snd (TextArea.onKeyDownChain ua submit r w))
  = w_trace w ++
    if defaultPrevented (w_event w) then []
    else if accepted_enter ua (TextArea.allowFormSubmitOnEnter r) true (w_event w)
            && negb (w_isComposing w)
         then match attached_form (TextArea.formContext r) with
              | Some form => [PreventDefault; RequestSubmit form]
              | None => optional_invocation (TextArea.props_onKeyDown r)
              end
         else optional_invocation (TextArea.props_onKeyDown r).
Proof.
  unfold TextArea.onKeyDownChain, TextArea.submitHandlers.
  rewrite chain_any_pair. unfold short_circuits. cbn [truthy andb].
  destruct (defaultPrevented (w_event w)) eqn:P; [cbn; now rewrite app_nil_r|].
  rewrite onKeyDown_any_decision.
  destruct (accepted_enter ua (TextArea.allowFormSubmitOnEnter r) true (w_event w)
            && negb (w_isComposing w)).
  - cbn [call_fn]. rewrite (proj2 (submit_callbacks _ _)), (proj1 (submit_callbacks _ _)).
    destruct (attached_form (TextArea.formContext r)) as [form|].
    + unfold requestSubmit, preventDefault. cbn.
      destruct (fst (submit form (w_ext w))) as [[]|exn]; cbn;
        now rewrite <- app_assoc.
    + rewrite P. apply call_if_present_trace.
  - rewrite P. apply call_if_present_trace.
Qed.

(** ** Input: Enter *)

(** X12: pressing Enter in an Input, with a browser whose [requestSubmit]
    returns. If no composition is open, the press is an accepted Enter
    (plain, or with the platform's modifier) and a form is attached, the
    event is default-prevented and the form is asked to submit. In every
    case the client's [onPressEnter], if there is one, is called afterwards,
    once: a submit does not hide the press from the client, and neither does
    an event that arrived default-prevented. *)
Theorem Input_press_enter (r : @Input.Render Ext) w :
  submit_returns submit ->
  w_trace (snd (Input.onPressEnterChain ua submit r w))
  = w_trace w
    ++ (if accepted_enter ua true true (w_event w) && negb (w_isComposing w)
        then submission (Input.formContext r) else [])
    ++ optional_invocation (Input.props_onPressEnter r).
Proof.
  intros Ret.
  unfold Input.onPressEnterChain, Input.submitHandlers, submission.
  rewrite chain_any_pair. unfold short_circuits. cbn [truthy andb].
  rewrite onKeyDown_any_decision.
  destruct (accepted_enter ua true true (w_event w) && negb (w_isComposing w)).
  - cbn [call_fn]. rewrite (proj1 (submit_callbacks _ _)).
    destruct (attached_form (Input.formContext r)) as [form|].
    + unfold requestSubmit, preventDefault. cbn [snd fst w_ext w_trace].
      rewrite (Ret form (w_ext w)).
      rewrite call_if_present_trace. cbn [w_trace].
      now rewrite <- !app_assoc.
    + rewrite call_if_present_trace. reflexivity.
  - rewrite call_if_present_trace. reflexivity.
Qed.

(** ** TextArea over its life *)

Lemma TextArea_deliver_fold (evs : list (@TextArea.Render Ext * FieldEvent)) w :
  TextArea.deliver ua submit evs w
  = fold_left (fun w re => snd (TextArea.dispatch ua submit (fst re) (snd re) w))
      evs w.
Proof.
  revert w. induction evs as [|[r ev] evs IH]; intros w; [reflexivity|].
  cbn [TextArea.deliver fold_left fst snd]. apply IH.
Qed.

Lemma TextArea_keydown_cells (r : @TextArea.Render Ext) :
  keeps_cells (TextArea.onKeyDownChain ua submit r).
Proof.
  apply keeps_cells_chain_pair, keeps_cells_onKeyDown.
  cbn [call_fn]. intros w. rewrite (proj2 (submit_callbacks _ _)).
  apply keeps_cells_onFormSubmit.
Qed.

Lemma TextArea_handleFocus_cells (r : @TextArea.Render Ext) w :
  let w' := snd (TextArea.handleFocus r w) in
  w_isComposing w' = w_isComposing w /\ w_canTrigger w' = true.
Proof.
  cbv zeta. unfold TextArea.handleFocus, TextArea.resetSendAnalyticsEventOnFocus.
  cbn [reset useCallbackOnceUntilReset]. unfold bind, set_canTrigger.
  match goal with |- context [call_if_present ?u ?w1] =>
    destruct (keeps_cells_call_if_present u w1) as [-> ->] end.
  split; reflexivity.
Qed.

Lemma TextArea_handleChange_isComposing (r : @TextArea.Render Ext) e w :
  w_isComposing (snd (TextArea.handleChange r e w)) = w_isComposing w.
Proof.
  unfold TextArea.handleChange, TextArea.sendAnalyticsEventOncePerFocus.
  revert w. apply bind_keeps; [apply once_call_isComposing|].
  intros _. apply bind_keeps; [|reflexivity].
  intros w. apply keeps_cells_call_change_if_present.
Qed.

Lemma TextArea_handleChange_canTrigger (r : @TextArea.Render Ext) e w :
  thunk_returns_normally (TextArea.eventContext_onValueChange r) ->
  w_canTrigger (snd (TextArea.handleChange r e w)) = false.
Proof.
  intros Ret.
  unfold TextArea.handleChange, TextArea.sendAnalyticsEventOncePerFocus.
  unfold bind at 1.
  destruct (once_call_trace (TextArea.eventContext_onValueChange r) w Ret) as [-> _].
  pose proof (once_call_canTrigger (TextArea.eventContext_onValueChange r) w Ret) as Off.
  match goal with |- context [bind ?m ?k ?w1] =>
    rewrite (bind_keeps w_canTrigger m k) end; [exact Off| |reflexivity].
  intros w1. apply keeps_cells_call_change_if_present.
Qed.

Lemma TextArea_dispatch_isComposing (r : @TextArea.Render Ext) ev w :
  w_isComposing (snd (TextArea.dispatch ua submit r ev w))
  = match ev with
    | Key (CompositionStart _) => true
    | Key (CompositionEnd _) => false
    | _ => w_isComposing w
    end.
Proof.
  destruct ev as [e|e|[e|e|e]]; cbn [TextArea.dispatch].
  - exact (proj1 (TextArea_handleFocus_cells r (with_event e w))).
  - apply TextArea_handleChange_isComposing.
  - exact (proj1 (composition_chain_cells true _ (with_event e w))).
  - exact (proj1 (composition_chain_cells false _ (with_event e w))).
  - exact (proj1 (TextArea_keydown_cells r (with_event e w))).
Qed.

Lemma TextArea_dispatch_canTrigger (r : @TextArea.Render Ext) ev w :
  thunk_returns_normally (TextArea.eventContext_onValueChange r) ->
  w_canTrigger (snd (TextArea.dispatch ua submit r ev w))
  = match ev with
    | Focus _ => true
    | Change _ => false
    | Key _ => w_canTrigger w
    end.
Proof.
  intros Ret. destruct ev as [e|e|[e|e|e]]; cbn [TextArea.dispatch].
  - exact (proj2 (TextArea_handleFocus_cells r (with_event e w))).
  - now apply TextArea_handleChange_canTrigger.
  - exact (proj2 (composition_chain_cells true _ (with_event e w))).
  - exact (proj2 (composition_chain_cells false _ (with_event e w))).
  - exact (proj2 (TextArea_keydown_cells r (with_event e w))).
Qed.

(** X13: a TextArea never submits while a composition is open. Whatever
    the field is told from its mount on (focus, change, keydown and
    composition events, each with the props and contexts of its render, and
    whatever the client's handlers do), the composition flag is up exactly
    when a compositionstart has no compositionend after it; and a keydown
    that arrives then only reaches the client's [onKeyDown] (if the event is
    not default-prevented): no preventDefault, no requestSubmit. *)
Theorem TextArea_never_submits_while_composing
    (evs : list (@TextArea.Render Ext * FieldEvent)) w0 :
  w_isComposing w0 = false ->
  let w := TextArea.deliver ua submit evs w0 in
  (w_isComposing w = true <-> composition_open (key_events (map snd evs)))
  /\ (composition_open (key_events (map snd evs)) ->
      forall r e,
        w_trace (snd (TextArea.dispatch ua submit r (Key (KeyDown e)) w))
        = w_trace w
          ++ (if defaultPrevented e then []
              else optional_invocation (TextArea.props_onKeyDown r))).
Proof.
  intros Init. cbv zeta. rewrite TextArea_deliver_fold.
  pose proof (field_flag_follows_compositions w_isComposing
                (fun r ev w => snd (TextArea.dispatch ua submit r ev w))
                evs w0 TextArea_dispatch_isComposing Init) as Inv.
  split; [exact Inv|].
  intros Open r e. apply Inv in Open. cbn [TextArea.dispatch].
  unfold TextArea.onKeyDownChain, TextArea.submitHandlers.
  rewrite chain_any_pair. unfold short_circuits. cbn [truthy andb with_event w_event].
  destruct (defaultPrevented e) eqn:P; [cbn; now rewrite app_nil_r|].
  rewrite onKeyDown_any_decision. cbn [with_event w_isComposing w_event].
  rewrite Open. cbn [negb]. rewrite andb_false_r.
  cbn [with_event w_event]. rewrite P.
  rewrite call_if_present_trace. reflexivity.
Qed.

(** X14: the analytics callback of a TextArea is sent once per focus. With
    analytics callbacks that return, from the mount on: a change that is the
    first since the mount or since the last focus calls
    [eventContext.onValueChange] and then the client's [onChange] (if any);
    every later change before the next focus calls only the client's
    [onChange]. *)
Theorem TextArea_analytics_once_per_focus
    (evs : list (@TextArea.Render Ext * FieldEvent)) w0 r e :
  Forall (fun re => thunk_returns_normally (TextArea.eventContext_onValueChange (fst re)))
    evs ->
  thunk_returns_normally (TextArea.eventContext_onValueChange r) ->
  w_canTrigger w0 = true ->
  let w := TextArea.deliver ua submit evs w0 in
  let onChange_call :=
    match TextArea.props_onChange r with
    | JsValue h => [Invoked (ch_name h)]
    | _ => []
    end in
  (~ changed_since_focus (map snd evs) ->
     w_trace (snd (TextArea.handleChange r e w))
     = w_trace w
       ++ Invoked (t_name (TextArea.eventContext_onValueChange r)) :: onChange_call)
  /\ (changed_since_focus (map snd evs) ->
     w_trace (snd (TextArea.handleChange r e w)) = w_trace w ++ onChange_call).
Proof.
  intros Rets Ret Init. cbv zeta. rewrite TextArea_deliver_fold.
  assert (w_canTrigger
            (fold_left
               (fun w re => snd (TextArea.dispatch ua submit (fst re) (snd re) w))
               evs w0) = false
          <-> changed_since_focus (map snd evs)) as Inv.
  { apply (field_flag_follows_focus w_canTrigger
             (fun r ev w => snd (TextArea.dispatch ua submit r ev w))); [|exact Init].
    intros r' ev' s Hin. apply TextArea_dispatch_canTrigger.
    rewrite Forall_forall in Rets. exact (Rets (r', ev') Hin). }
  set (w := fold_left _ evs w0) in *.
  assert (w_trace (snd (TextArea.handleChange r e w))
          = w_trace w
            ++ (if w_canTrigger w
                then [Invoked (t_name (TextArea.eventContext_onValueChange r))]
                else [])
            ++ match TextArea.props_onChange r with
               | JsValue h => [Invoked (ch_name h)]
               | _ => []
               end) as Trace.
  { unfold TextArea.handleChange, TextArea.sendAnalyticsEventOncePerFocus.
    unfold bind at 1.
    destruct (once_call_trace (TextArea.eventContext_onValueChange r) w Ret)
      as [Run Tr].
    rewrite Run. unfold bind, ret.
    destruct (TextArea.props_onChange r) as [| |h];
      cbn [call_change_if_present strict_eq_null strict_eq_undefined];
      unfold ret; cbn [snd].
    - rewrite app_nil_r. exact Tr.
    - rewrite app_nil_r. exact Tr.
    - unfold call_change_handler.
      match goal with |- context [ceff_completion ?x] =>
        destruct (ceff_completion x) end; cbn [snd w_trace];
        rewrite Tr, <- app_assoc; reflexivity. }
  split.
  - intros Fresh. rewrite Trace.
    destruct (w_canTrigger w) eqn:C; [reflexivity|].
    exfalso. now apply Fresh, Inv.
  - intros Changed. rewrite Trace. apply Inv in Changed. now rewrite Changed.
Qed.

(** ** Input over its life *)

Lemma Input_deliver_fold (evs : list (@Input.Render Ext * FieldEvent)) s :
  Input.deliver ua submit evs s
  = fold_left (fun s re => snd (Input.dispatch ua submit (fst re) (snd re) s))
      evs s.
Proof.
  revert s. induction evs as [|[r ev] evs IH]; intros s; [reflexivity|].
  cbn [Input.deliver fold_left fst snd]. apply IH.
Qed.

(** [handleChange] of [Input], step by step. *)
Lemma Input_handleChange_run (r : @Input.Render Ext) e s :
  Input.handleChange r e s
  = match callbackOnceUntilReset
            (useCallbackOnceUntilReset (Input.eventContext_onValueChange r))
            (Input.world s) with
    | (Thrown exn, w1) => (Thrown exn, Input.mkState (Input.hasValue s) w1)
    | (Normal _, w1) =>
        if negb (Boolean (target_value e))
           && negb (nativeEvent_isInputEvent e)
           && is_set (Input.props_onClear r)
        then
          match call_thunk_if_present (Input.props_onClear r) w1 with
          | (Normal _, w2) => (Normal tt, Input.mkState false w2)
          | (Thrown exn, w2) => (Thrown exn, Input.mkState (Input.hasValue s) w2)
          end
        else
          match call_change_if_present (Input.props_onChange r) e w1 with
          | (Normal e', w2) =>
              (Normal tt, Input.mkState (Boolean (target_value e')) w2)
          | (Thrown exn, w2) => (Thrown exn, Input.mkState (Input.hasValue s) w2)
          end
    end.
Proof.
  unfold Input.handleChange, Input.sendAnalyticsEventOncePerFocus.
  unfold Input.bindI at 1. unfold Input.lift at 1.
  destruct (callbackOnceUntilReset _ (Input.world s)) as [[[]|exn] w1];
    cbn [fst snd]; [|reflexivity].
  replace (Bool.eqb (nativeEvent_isInputEvent e) false)
    with (negb (nativeEvent_isInputEvent e))
    by (destruct (nativeEvent_isInputEvent e); reflexivity).
  destruct (negb (Boolean (target_value e)) && negb (nativeEvent_isInputEvent e)
            && is_set (Input.props_onClear r)).
  - unfold Input.bindI, Input.lift, Input.setHasValue. cbn [Input.world Input.hasValue].
    destruct (call_thunk_if_present (Input.props_onClear r) w1) as [[[]|exn] w2];
      reflexivity.
  - unfold Input.bindI, Input.lift, Input.setHasValue. cbn [Input.world Input.hasValue].
    destruct (call_change_if_present (Input.props_onChange r) e w1) as [[e'|exn] w2];
      reflexivity.
Qed.

Lemma Input_handleChange_isComposing (r : @Input.Render Ext) e s :
  w_isComposing (Input.world (snd (Input.handleChange r e s)))
  = w_isComposing (Input.world s).
Proof.
  rewrite Input_handleChange_run.
  pose proof (once_call_isComposing (Input.eventContext_onValueChange r) (Input.world s))
    as Once.
  destruct (callbackOnceUntilReset _ (Input.world s)) as [[[]|exn] w1];
    cbn [snd] in Once; [|exact Once].
  destruct (negb (Boolean (target_value e)) && negb (nativeEvent_isInputEvent e)
            && is_set (Input.props_onClear r)).
  - pose proof (proj1 (keeps_cells_call_thunk_if_present (Input.props_onClear r) w1)) as K.
    destruct (call_thunk_if_present (Input.props_onClear r) w1) as [[[]|exn] w2];
      cbn [snd Input.world] in *; congruence.
  - pose proof (proj1 (keeps_cells_call_change_if_present (Input.props_onChange r) e w1)) as K.
    destruct (call_change_if_present (Input.props_onChange r) e w1) as [[e'|exn] w2];
      cbn [snd Input.world] in *; congruence.
Qed.

Lemma Input_handleChange_canTrigger (r : @Input.Render Ext) e s :
  thunk_returns_normally (Input.eventContext_onValueChange r) ->
  w_canTrigger (Input.world (snd (Input.handleChange r e s))) = false.
Proof.
  intros Ret. rewrite Input_handleChange_run.
  destruct (once_call_trace (Input.eventContext_onValueChange r) (Input.world s) Ret)
    as [Run _].
  pose proof (once_call_canTrigger (Input.eventContext_onValueChange r) (Input.world s) Ret)
    as Off.
  rewrite Run.
  set (w1 := snd (callbackOnceUntilReset _ (Input.world s))) in *.
  destruct (negb (Boolean (target_value e)) && negb (nativeEvent_isInputEvent e)
            && is_set (Input.props_onClear r)).
  - pose proof (proj2 (keeps_cells_call_thunk_if_present (Input.props_onClear r) w1)) as K.
    destruct (call_thunk_if_present (Input.props_onClear r) w1) as [[[]|exn] w2];
      cbn [snd Input.world] in *; congruence.
  - pose proof (proj2 (keeps_cells_call_change_if_present (Input.props_onChange r) e w1)) as K.
    destruct (call_change_if_present (Input.props_onChange r) e w1) as [[e'|exn] w2];
      cbn [snd Input.world] in *; congruence.
Qed.

Lemma Input_handleFocus_cells (r : @Input.Render Ext) w :
  let w' := snd (Input.handleFocus r w) in
  w_isComposing w' = w_isComposing w /\ w_canTrigger w' = true.
Proof.
  cbv zeta. unfold Input.handleFocus, Input.resetSendAnalyticsEventOnFocus.
  cbn [reset useCallbackOnceUntilReset]. unfold bind, set_canTrigger.
  match goal with |- context [call_if_present ?u ?w1] =>
    destruct (keeps_cells_call_if_present u w1) as [-> ->] end.
  split; reflexivity.
Qed.

Lemma Input_press_enter_cells (r : @Input.Render Ext) :
  keeps_cells (Input.onPressEnterChain ua submit r).
Proof.
  apply keeps_cells_chain_pair, keeps_cells_onKeyDown.
  cbn [call_fn]. apply keeps_cells_onFormSubmit.
Qed.

Lemma Input_dispatch_isComposing (r : @Input.Render Ext) ev s :
  w_isComposing (Input.world (snd (Input.dispatch ua submit r ev s)))
  = match ev with
    | Key (CompositionStart _) => true
    | Key (CompositionEnd _) => false
    | _ => w_isComposing (Input.world s)
    end.
Proof.
  destruct ev as [e|e|[e|e|e]]; cbn [Input.dispatch];
    unfold Input.lift; cbn [snd Input.world].
  - exact (proj1 (Input_handleFocus_cells r (with_event e (Input.world s)))).
  - apply Input_handleChange_isComposing.
  - exact (proj1 (composition_chain_cells true _ (with_event e (Input.world s)))).
  - exact (proj1 (composition_chain_cells false _ (with_event e (Input.world s)))).
  - exact (proj1 (Input_press_enter_cells r (with_event e (Input.world s)))).
Qed.

Lemma Input_dispatch_canTrigger (r : @Input.Render Ext) ev s :
  thunk_returns_normally (Input.eventContext_onValueChange r) ->
  w_canTrigger (Input.world (snd (Input.dispatch ua submit r ev s)))
  = match ev with
    | Focus _ => true
    | Change _ => false
    | Key _ => w_canTrigger (Input.world s)
    end.
Proof.
  intros Ret. destruct ev as [e|e|[e|e|e]]; cbn [Input.dispatch];
    unfold Input.lift; cbn [snd Input.world].
  - exact (proj2 (Input_handleFocus_cells r (with_event e (Input.world s)))).
  - now apply Input_handleChange_canTrigger.
  - exact (proj2 (composition_chain_cells true _ (with_event e (Input.world s)))).
  - exact (proj2 (composition_chain_cells false _ (with_event e (Input.world s)))).
  - exact (proj2 (Input_press_enter_cells r (with_event e (Input.world s)))).
Qed.

(** X15: an Input never submits while a composition is open. Whatever the
    field is told from its mount on, and whatever the client's handlers do,
    the composition flag is up exactly when a compositionstart has no
    compositionend after it; and an Enter press that arrives then only
    reaches the client's [onPressEnter]: no preventDefault, no
    requestSubmit. *)
Theorem Input_never_submits_while_composing
    (evs : list (@Input.Render Ext * FieldEvent)) s0 :
  w_isComposing (Input.world s0) = false ->
  let s := Input.deliver ua submit evs s0 in
  (w_isComposing (Input.world s) = true
   <-> composition_open (key_events (map snd evs)))
  /\ (composition_open (key_events (map snd evs)) ->
      forall r e,
        w_trace (Input.world (snd (Input.dispatch ua submit r (Key (KeyDown e)) s)))
        = w_trace (Input.world s) ++ optional_invocation (Input.props_onPressEnter r)).
Proof.
  intros Init. cbv zeta. rewrite Input_deliver_fold.
  pose proof (field_flag_follows_compositions
                (fun s => w_isComposing (Input.world s))
                (fun r ev s => snd (Input.dispatch ua submit r ev s))
                evs s0 Input_dispatch_isComposing Init) as Inv.
  split; [exact Inv|].
  intros Open r e. apply Inv in Open. cbn [Input.dispatch].
  unfold Input.lift. cbn [snd Input.world].
  unfold Input.onPressEnterChain, Input.submitHandlers.
  rewrite chain_any_pair. unfold short_circuits. cbn [truthy andb].
  rewrite onKeyDown_any_decision. cbn [with_event w_isComposing].
  rewrite Open. cbn [negb]. rewrite andb_false_r.
  rewrite call_if_present_trace. reflexivity.
Qed.

(** X16: the analytics callback of an Input is sent once per focus, and a
    change calls [onClear] or [onChange], never both. With analytics
    callbacks that return, from the mount on: a change that is the first
    since the mount or since the last focus calls
    [eventContext.onValueChange] first, every later change before the next
    focus does not; after that, a change that emptied the field by
    something else than typing calls [onClear] if the client set it, and
    every other change calls [onChange] if the client set it. *)
Theorem Input_analytics_once_per_focus
    (evs : list (@Input.Render Ext * FieldEvent)) s0 r e :
  Forall (fun re => thunk_returns_normally (Input.eventContext_onValueChange (fst re)))
    evs ->
  thunk_returns_normally (Input.eventContext_onValueChange r) ->
  w_canTrigger (Input.world s0) = true ->
  let s := Input.deliver ua submit evs s0 in
  let after := Input.world (snd (Input.handleChange r e s)) in
  let change := change_invocation (Input.props_onClear r) (Input.props_onChange r) e in
  (~ changed_since_focus (map snd evs) ->
     w_trace after
     = w_trace (Input.world s)
       ++ Invoked (t_name (Input.eventContext_onValueChange r)) :: change)
  /\ (changed_since_focus (map snd evs) ->
     w_trace after = w_trace (Input.world s) ++ change).
Proof.
  intros Rets Ret Init. cbv zeta. rewrite Input_deliver_fold.
  assert (w_canTrigger
            (Input.world
               (fold_left
                  (fun s re => snd (Input.dispatch ua submit (fst re) (snd re) s))
                  evs s0)) = false
          <-> changed_since_focus (map snd evs)) as Inv.
  { apply (field_flag_follows_focus (fun s => w_canTrigger (Input.world s))
             (fun r ev s => snd (Input.dispatch ua submit r ev s))); [|exact Init].
    intros r' ev' s Hin. apply Input_dispatch_canTrigger.
    rewrite Forall_forall in Rets. exact (Rets (r', ev') Hin). }
  set (s := fold_left _ evs s0) in *.
  assert (w_trace (Input.world (snd (Input.handleChange r e s)))
          = w_trace (Input.world s)
            ++ (if w_canTrigger (Input.world s)
                then [Invoked (t_name (Input.eventContext_onValueChange r))]
                else [])
            ++ change_invocation (Input.props_onClear r) (Input.props_onChange r) e)
    as Trace.
  { rewrite Input_handleChange_run.
    destruct (once_call_trace (Input.eventContext_onValueChange r) (Input.world s) Ret)
      as [Run Tr].
    rewrite Run. unfold change_invocation.
    set (w1 := snd (callbackOnceUntilReset _ (Input.world s))) in *.
    destruct (negb (Boolean (target_value e)) && negb (nativeEvent_isInputEvent e)
              && is_set (Input.props_onClear r)) eqn:Cleared.
    - destruct (Input.props_onClear r) as [| |t];
        [now rewrite andb_false_r in Cleared|now rewrite andb_false_r in Cleared|].
      cbn [call_thunk_if_present strict_eq_null strict_eq_undefined].
      unfold call_thunk.
      destruct (fst (t_body t (w_ext w1))) as [[]|exn]; cbn [snd Input.world w_trace];
        rewrite Tr, <- app_assoc; reflexivity.
    - destruct (Input.props_onChange r) as [| |h];
        cbn [call_change_if_present strict_eq_null strict_eq_undefined];
        unfold ret; cbn [snd Input.world].
      + rewrite app_nil_r. exact Tr.
      + rewrite app_nil_r. exact Tr.
      + unfold call_change_handler.
        match goal with |- context [ceff_completion ?x] =>
          destruct (ceff_completion x) end; cbn [snd Input.world w_trace];
          rewrite Tr, <- app_assoc; reflexivity. }
  split.
  - intros Fresh. rewrite Trace.
    destruct (w_canTrigger (Input.world s)) eqn:C; [reflexivity|].
    exfalso. now apply Fresh, Inv.
  - intros Changed. rewrite Trace. apply Inv in Changed. now rewrite Changed.
Qed.

(** X17: [hasValue] of an Input tells whether the field is empty. When
    [handleChange] returns, with an [onChange] of the client that leaves the
    event's value alone, [hasValue] is true exactly when the value of the
    change event is not empty (an emptied field handed to [onClear]
    included); when [handleChange] throws, [hasValue] is as it was. *)
Theorem Input_hasValue_tracks_value (r : @Input.Render Ext) e s :
  keeps_value (Input.props_onChange r) ->
  match fst (Input.handleChange r e s) with
  | Normal _ =>
      Input.hasValue (snd (Input.handleChange r e s)) = Boolean (target_value e)
  | Thrown _ =>
      Input.hasValue (snd (Input.handleChange r e s)) = Input.hasValue s
  end.
Proof.
  intros Keeps. rewrite Input_handleChange_run.
  destruct (callbackOnceUntilReset _ (Input.world s)) as [[[]|exn] w1];
    [|reflexivity].
  destruct (negb (Boolean (target_value e)) && negb (nativeEvent_isInputEvent e)
            && is_set (Input.props_onClear r)) eqn:Cleared.
  - destruct (call_thunk_if_present (Input.props_onClear r) w1) as [[[]|exn] w2];
      [|reflexivity].
    cbn [fst snd Input.hasValue].
    apply andb_prop in Cleared as [Cleared _].
    apply andb_prop in Cleared as [Empty _].
    destruct (Boolean (target_value e)); [discriminate Empty|reflexivity].
  - destruct (Input.props_onChange r) as [| |h] eqn:OnChange;
      cbn [call_change_if_present strict_eq_null strict_eq_undefined];
      try reflexivity.
    unfold call_change_handler.
    destruct (ceff_completion (ch_body h e (w_ext w1))) as [[]|exn];
      [|reflexivity].
    cbn [fst snd Input.hasValue]. now rewrite (Keeps h eq_refl).
Qed.

(** ** The composition handlers of both components *)

(** X18: the composition handlers of Input and TextArea write the
    composition flag first and then call the client's handler of the same
    event, if there is one, whether or not the event is default-prevented
    (these chains leave [stopOnDefaultPrevented] out). *)
Theorem composition_chains_write_flag_first
    (ri : @Input.Render Ext) (rt : @TextArea.Render Ext) w :
  Input.onCompositionStartChain ua submit ri w
  = call_if_present (Input.props_onCompositionStart ri) (snd (set_isComposing true w))
  /\ Input.onCompositionEndChain ua submit ri w
     = call_if_present (Input.props_onCompositionEnd ri) (snd (set_isComposing false w))
  /\ TextArea.onCompositionStartChain ua submit rt w
     = call_if_present (TextArea.props_onCompositionStart rt)
         (snd (set_isComposing true w))
  /\ TextArea.onCompositionEndChain ua submit rt w
     = call_if_present (TextArea.props_onCompositionEnd rt)
         (snd (set_isComposing false w)).
Proof.
  unfold Input.onCompositionStartChain, Input.onCompositionEndChain,
    TextArea.onCompositionStartChain, TextArea.onCompositionEndChain.
  rewrite !chain_any_pair. unfold short_circuits. cbn [truthy andb].
  repeat split; reflexivity.
Qed.

End ComponentProperties.

(** * The further properties at work on the sample clients *)

Lemma chain_handler_throws_witness :
  useChainEventHandlers
    (mkChainProps [JsValue (h_count 1); JsValue (h_throw 2); JsValue (h_count 3)] None)
    (mount plain_enter 0)
  = (Thrown "Error: boom", mkWorld plain_enter false true 1 [Invoked 1; Invoked 2]).
Proof.
  exact (chain_handler_throws [JsValue (h_count 1)] (h_throw 2) [JsValue (h_count 3)]
           None "Error: boom" (mount plain_enter 0) eq_refl eq_refl eq_refl).
Defined.

Lemma chain_exception_origin_witness :
  exists h w1,
    In h [h_count 1; h_throw 2; h_count 3]
    /\ call_handler h w1
       = (Thrown "Error: boom",
          mkWorld plain_enter false true 1 [Invoked 1; Invoked 2]).
Proof.
  exact (chain_exception_origin
           [JsValue (h_count 1); JsValue (h_throw 2); JsValue (h_count 3)]
           None "Error: boom" (mount plain_enter 0) eq_refl).
Defined.

Lemma chain_stops_once_prevented_witness :
  w_trace
    (snd (useChainEventHandlers
            (mkChainProps
               [JsValue (h_prevent 1); JsValue (h_count 2); JsValue (h_count 3)]
               (Some true))
            (mount plain_enter 0)))
  = [Invoked 1].
Proof.
  exact (f_equal (fun r => w_trace (snd r))
           (chain_stops_once_prevented [JsValue (h_prevent 1)]
              [JsValue (h_count 2); JsValue (h_count 3)] (Some true)
              (mount plain_enter 0) eq_refl eq_refl)).
Defined.

Lemma gate_flags_monotone_witness :
  w_trace
    (snd (onKeyDown (useCallbackOnEnter mac_userAgent (mkGateProps (h_count 7) true true))
            (mount plain_enter 0)))
  = [Invoked 7].
Proof.
  exact (gate_flags_monotone mac_userAgent (h_count 7) true false true true
           (mount plain_enter 0) eq_refl eq_refl eq_refl).
Defined.

Lemma gate_basic_excludes_platform_witness :
  onKeyDown (useCallbackOnEnter mac_userAgent (mkGateProps (h_count 7) false true))
    (mount plain_enter 0)
  = (Normal tt, mount plain_enter 0).
Proof.
  exact (gate_basic_excludes_platform mac_userAgent (h_count 7)
           (mount plain_enter 0) eq_refl).
Defined.

Lemma t_throw_always_throws name : thunk_always_throws (t_throw name).
Proof. intros x. exists "Error: boom". reflexivity. Defined.

Lemma once_throwing_never_disarmed_witness :
  let w := once_run (useCallbackOnceUntilReset (t_throw 5))
             [CallOnce; CallOnce; CallOnce] (mount letter_a 0) in
  w_canTrigger w = true /\ w_trace w = [Invoked 5; Invoked 5; Invoked 5].
Proof.
  exact (once_throwing_never_disarmed (t_throw 5) [CallOnce; CallOnce; CallOnce]
           (mount letter_a 0) (t_throw_always_throws 5) eq_refl).
Defined.

Lemma once_invocations_bounded_witness :
  exists k,
    w_trace (once_run (useCallbackOnceUntilReset (t_count 5))
               [CallOnce; CallOnce; Reset; CallOnce] (mount letter_a 0))
    = repeat (Invoked 5) k
    /\ k <= 2.
Proof.
  exact (once_invocations_bounded (t_count 5) [CallOnce; CallOnce; Reset; CallOnce]
           (mount letter_a 0) (t_count_returns_normally 5)).
Defined.

Lemma submit_ok_returns : submit_returns submit_ok.
Proof. intros form x. reflexivity. Defined.

Lemma Input_press_enter_witness :
  w_trace (snd (Input.onPressEnterChain mac_userAgent submit_ok sample_input
                  (mount plain_enter 0)))
  = [PreventDefault; RequestSubmit 3; Invoked 13].
Proof.
  exact (Input_press_enter mac_userAgent submit_ok sample_input (mount plain_enter 0)
           submit_ok_returns).
Defined.

Lemma TextArea_never_submits_while_composing_witness :
  let w := TextArea.deliver mac_userAgent submit_ok
             [(sample_textarea, Key (CompositionStart letter_a))] (mount letter_a 0) in
  w_isComposing w = true
  /\ w_trace (snd (TextArea.dispatch mac_userAgent submit_ok sample_textarea
                     (Key (KeyDown (enter true false false false))) w))
     = [Invoked 23].
Proof.
  cbv zeta.
  destruct (TextArea_never_submits_while_composing mac_userAgent submit_ok
              [(sample_textarea, Key (CompositionStart letter_a))] (mount letter_a 0)
              eq_refl) as [Flag Quiet].
  assert (composition_open [CompositionStart letter_a]) as Open
    by (exists [], letter_a, []; split; reflexivity).
  split.
  - apply Flag. exact Open.
  - exact (Quiet Open sample_textarea (enter true false false false)).
Defined.

Lemma TextArea_analytics_once_per_focus_witness :
  w_trace (snd (TextArea.handleChange sample_textarea typed_a (mount letter_a 0)))
  = [Invoked 20; Invoked 21]
  /\ w_trace
       (snd (TextArea.handleChange sample_textarea typed_a
               (TextArea.deliver mac_userAgent submit_ok
                  [(sample_textarea, Change typed_a)] (mount letter_a 0))))
     = [Invoked 20; Invoked 21; Invoked 21].
Proof.
  split.
  - refine (proj1 (TextArea_analytics_once_per_focus mac_userAgent submit_ok []
                     (mount letter_a 0) sample_textarea typed_a
                     (Forall_nil _) (t_count_returns_normally 20) eq_refl) _).
    intros (before & e & after & E & _). now destruct before.
  - assert (Forall
              (fun re : TextArea.Render * FieldEvent =>
                 thunk_returns_normally (TextArea.eventContext_onValueChange (fst re)))
              [(sample_textarea, Change typed_a)]) as Rets
      by (repeat constructor; intros x; reflexivity).
    refine (proj2 (TextArea_analytics_once_per_focus mac_userAgent submit_ok
                     [(sample_textarea, Change typed_a)]
                     (mount letter_a 0) sample_textarea typed_a
                     Rets (t_count_returns_normally 20) eq_refl) _).
    exists [], typed_a, []. split; reflexivity.
Defined.

Lemma Input_never_submits_while_composing_witness :
  let s := Input.deliver mac_userAgent submit_ok
             [(sample_input, Key (CompositionStart letter_a))]
             (Input.mkState false (mount letter_a 0)) in
  w_isComposing (Input.world s) = true
  /\ w_trace (Input.world
                (snd (Input.dispatch mac_userAgent submit_ok sample_input
                        (Key (KeyDown plain_enter)) s)))
     = [Invoked 13].
Proof.
  cbv zeta.
  destruct (Input_never_submits_while_composing mac_userAgent submit_ok
              [(sample_input, Key (CompositionStart letter_a))]
              (Input.mkState false (mount letter_a 0)) eq_refl) as [Flag Quiet].
  assert (composition_open [CompositionStart letter_a]) as Open
    by (exists [], letter_a, []; split; reflexivity).
  split.
  - apply Flag. exact Open.
  - exact (Quiet Open sample_input plain_enter).
Defined.

Lemma Input_analytics_once_per_focus_witness :
  let s0 := Input.mkState false (mount letter_a 0) in
  w_trace (Input.world (snd (Input.handleChange sample_input cleared_by_button s0)))
  = [Invoked 10; Invoked 12]
  /\ w_trace
       (Input.world
          (snd (Input.handleChange sample_input typed_a
                  (Input.deliver mac_userAgent submit_ok
                     [(sample_input, Change typed_a)] s0))))
     = [Invoked 10; Invoked 11; Invoked 11].
Proof.
  cbv zeta. split.
  - refine (proj1 (Input_analytics_once_per_focus mac_userAgent submit_ok []
                     (Input.mkState false (mount letter_a 0))
                     sample_input cleared_by_button
                     (Forall_nil _) (t_count_returns_normally 10) eq_refl) _).
    intros (before & e & after & E & _). now destruct before.
  - assert (Forall
              (fun re : Input.Render * FieldEvent =>
                 thunk_returns_normally (Input.eventContext_onValueChange (fst re)))
              [(sample_input, Change typed_a)]) as Rets
      by (repeat constructor; intros x; reflexivity).
    refine (proj2 (Input_analytics_once_per_focus mac_userAgent submit_ok
                     [(sample_input, Change typed_a)]
                     (Input.mkState false (mount letter_a 0))
                     sample_input typed_a
                     Rets (t_count_returns_normally 10) eq_refl) _).
    exists [], typed_a, []. split; reflexivity.
Defined.

Lemma ch_count_keeps_value name : keeps_value (JsValue (ch_count name)).
Proof. intros h [= <-] e x. reflexivity. Defined.

Lemma Input_hasValue_tracks_value_witness :
  let s0 := Input.mkState false (mount letter_a 0) in
  Input.hasValue (snd (Input.handleChange sample_input typed_a s0)) = true
  /\ Input.hasValue
       (snd (Input.handleChange sample_input cleared_by_button
               (Input.mkState true (mount letter_a 0)))) = false.
Proof.
  cbv zeta. split.
  - exact (Input_hasValue_tracks_value sample_input typed_a
             (Input.mkState false (mount letter_a 0)) (ch_count_keeps_value 11)).
  - exact (Input_hasValue_tracks_value sample_input cleared_by_button
             (Input.mkState true (mount letter_a 0)) (ch_count_keeps_value 11)).
Defined.
